(** * Flow lifecycle reconstruction ([process_pcap.py])

    A shallow embedding of [parse_flags] and [process_tcp_fields] and of
    the two Python built-ins they rest on, [int(s, 0)] and [float(s)].

    Modelling conventions.
    - A Python [str] is a Rocq [string] read as a sequence of code points
      below 256; the rows handed out by [csv.reader] are [list string].
    - A Python [int] is a [Z]; [&] on it is [Z.land] (both are the
      two's-complement conjunction on unbounded integers).
    - A Python [float] is an IEEE-754 binary64 value, [spec_float] with
      precision 53 and maximal exponent 1024; [+] and [-] round to nearest,
      ties to even ([SFadd], [SFsub]).
    - A Python [set] of flag names is a duplicate-free [list flag].
    - [connections] is an insertion-ordered dictionary: an association list
      without repeated keys, new keys appended at the end.
    - An exception that leaves [process_tcp_fields] is an [outcome] [Raise].
    - [DEBUG] is [True] in the source, so each [print] is recorded, in order,
      as a [debug_msg]. *)

From Stdlib Require Import ZArith NArith List Bool Ascii String Lia.
From Stdlib Require Import Floats.SpecFloat.
Import ListNotations.

Open Scope Z_scope.

(** ** Characters *)

Module Chars.

Definition code (c : ascii) : Z := Z.of_N (N_of_ascii c).

(** Whitespace skipped around a numeric literal: the C-locale spaces
    (tab, line feed, vertical tab, form feed, carriage return, blank)
    together with the two non-ASCII code points below 256 that the
    interpreter maps to a blank before parsing (NEL and NBSP). *)
Definition is_space (c : ascii) : bool :=
  let n := code c in
  ((9 <=? n) && (n <=? 13)) || (n =? 32) || (n =? 133) || (n =? 160).

Definition is_dec_digit (c : ascii) : bool :=
  let n := code c in (48 <=? n) && (n <=? 57).

(** Value of a character as a digit in bases up to 36
    ([0-9], then [a-z] or [A-Z] for 10..35). *)
Definition digit_value (c : ascii) : option Z :=
  let n := code c in
  if (48 <=? n) && (n <=? 57) then Some (n - 48)
  else if (97 <=? n) && (n <=? 122) then Some (n - 87)
  else if (65 <=? n) && (n <=? 90) then Some (n - 55)
  else None.

(** ASCII-only lower-casing. *)
Definition to_lower (c : ascii) : ascii :=
  let n := code c in
  if (65 <=? n) && (n <=? 90) then ascii_of_N (Z.to_N (n + 32)) else c.

Fixpoint skip_spaces (s : list ascii) : list ascii :=
  match s with
  | c :: r => if is_space c then skip_spaces r else s
  | [] => []
  end.

End Chars.

(** ** [int(s, 0)] *)

Module PyInt.
Import Chars.

(** Default of [sys.get_int_max_str_digits()]: a literal in a base that is
    not a power of two with more digits than this is refused with
    [ValueError]. *)
Definition int_max_str_digits : Z := 4300.

(** The digit loop: consumes digits below [base] and single underscores
    between them; [prev_us] tells whether the previous character was an
    underscore.  Fails on two underscores in a row and on a trailing
    underscore; otherwise yields the value, the number of digits and the
    unread rest. *)
Fixpoint scan_digits (base acc n : Z) (prev_us : bool) (s : list ascii)
  : option (Z * Z * list ascii) :=
  let stop := if prev_us then None else Some (acc, n, s) in
  match s with
  | c :: r =>
      if Ascii.eqb c "_" then
        if prev_us then None else scan_digits base acc n true r
      else
        match digit_value c with
        | Some d =>
            if d <? base then scan_digits base (acc * base + d) (n + 1) false r
            else stop
        | None => stop
        end
  | [] => stop
  end.

Inductive prefix_kind := NoPrefix | BasePrefix | LeadingZero.

(** Base detection of [int(_, 0)] on the text after the sign. *)
Definition detect_base (s : list ascii) : Z * prefix_kind * list ascii :=
  match s with
  | c0 :: r0 =>
      if Ascii.eqb c0 "0" then
        match r0 with
        | c1 :: r1 =>
            let l := to_lower c1 in
            if Ascii.eqb l "x" then (16, BasePrefix, r1)
            else if Ascii.eqb l "o" then (8, BasePrefix, r1)
            else if Ascii.eqb l "b" then (2, BasePrefix, r1)
            else (10, LeadingZero, s)
        | [] => (10, LeadingZero, s)
        end
      else (10, NoPrefix, s)
  | [] => (10, NoPrefix, s)
  end.

(** The digits after sign and prefix, and what may follow them. *)
Definition int_body (neg : bool) (base : Z) (kind : prefix_kind) (s3 : list ascii)
  : option Z :=
  (* one underscore is allowed right after a base prefix *)
  let s4 :=
    match kind, s3 with
    | BasePrefix, c :: r => if Ascii.eqb c "_" then r else s3
    | _, _ => s3
    end in
  match s4 with
  | c :: _ =>
      if Ascii.eqb c "_" then None
      else
        match scan_digits base 0 0 false s4 with
        | None => None
        | Some (v, n, rest) =>
            if (base =? 10) && (int_max_str_digits <? n) then None
            else if (match kind with LeadingZero => negb (v =? 0) | _ => false end)
            then None
            else if n =? 0 then None
            else
              match skip_spaces rest with
              | [] => Some (if neg then - v else v)
              | _ :: _ => None
              end
        end
  | [] => None
  end.

Definition int_of_chars (s : list ascii) : option Z :=
  let s1 := skip_spaces s in
  let '(neg, s2) :=
    match s1 with
    | c :: r => if Ascii.eqb c "+" then (false, r)
                else if Ascii.eqb c "-" then (true, r)
                else (false, s1)
    | [] => (false, s1)
    end in
  let '(base, kind, s3) := detect_base s2 in
  int_body neg base kind s3.

(** [int(s, 0)]: [Some n] for the integer, [None] for [ValueError]. *)
Definition int_base0 (s : string) : option Z :=
  int_of_chars (list_ascii_of_string s).

End PyInt.

(** ** [float(s)] and binary64 arithmetic *)

Module PyFloat.
Import Chars.

Definition float := spec_float.
Definition prec : Z := 53.
Definition emax : Z := 1024.

Definition add (x y : float) : float := SFadd prec emax x y.
Definition sub (x y : float) : float := SFsub prec emax x y.

(** Conversion of a Python [int] operand to [float]. *)
Definition of_int (z : Z) : float := binary_normalize prec emax z 0 false.

Definition is_finite (x : float) : bool :=
  match x with
  | S754_zero _ | S754_finite _ _ _ => true
  | S754_infinity _ | S754_nan => false
  end.

(** The binary64 value nearest to [(-1)^neg * m * 10^e]. *)
Definition round_decimal (neg : bool) (m : N) (e : Z) : float :=
  match m with
  | N0 => S754_zero neg
  | Npos p =>
      if 0 <=? e then
        binary_normalize prec emax (cond_Zopp neg (Zpos p * 10 ^ e)) 0 neg
      else
        SFdiv prec emax (S754_finite neg p 0)
                        (S754_finite false (Z.to_pos (10 ^ (- e))) 0)
  end.

(** Underscores may only stand between two decimal digits; they are
    removed before the literal is read.  [prev] is the previous character. *)
Fixpoint strip_underscores (prev : option ascii) (s : list ascii)
  : option (list ascii) :=
  let prev_us := match prev with Some p => Ascii.eqb p "_" | None => false end in
  let prev_digit := match prev with Some p => is_dec_digit p | None => false end in
  match s with
  | [] => if prev_us then None else Some []
  | c :: r =>
      if Ascii.eqb c "_" then
        if prev_digit then strip_underscores (Some c) r else None
      else if prev_us && negb (is_dec_digit c) then None
      else option_map (cons c) (strip_underscores (Some c) r)
  end.

(** Longest prefix of decimal digits, accumulated onto [acc], with the
    number of digits read. *)
Fixpoint take_digits (acc : N) (n : Z) (s : list ascii) : N * Z * list ascii :=
  match s with
  | c :: r =>
      if is_dec_digit c
      then take_digits (10 * acc + Z.to_N (code c - 48))%N (n + 1) r
      else (acc, n, s)
  | [] => (acc, n, s)
  end.

Definition take_sign (s : list ascii) : bool * list ascii :=
  match s with
  | c :: r => if Ascii.eqb c "-" then (true, r)
              else if Ascii.eqb c "+" then (false, r)
              else (false, s)
  | [] => (false, s)
  end.

(** Optional exponent part: [e] or [E], an optional sign and at least one
    digit; without a digit nothing is consumed. *)
Definition take_exponent (s : list ascii) : Z * list ascii :=
  match s with
  | c :: r =>
      if Ascii.eqb (to_lower c) "e" then
        let '(eneg, r1) := take_sign r in
        let '(v, n, r2) := take_digits 0 0 r1 in
        if n =? 0 then (0, s)
        else (if eneg then - Z.of_N v else Z.of_N v, r2)
      else (0, s)
  | [] => (0, s)
  end.

(** The decimal form: sign, digits, optional point and digits, optional
    exponent.  [None] when there is no digit at all. *)
Definition parse_decimal (s : list ascii) : option (float * list ascii) :=
  let '(neg, s1) := take_sign s in
  let '(m1, n1, s2) := take_digits 0 0 s1 in
  let '(m, nfrac, s3) :=
    match s2 with
    | c :: r =>
        if Ascii.eqb c "."
        then let '(m2, n2, r') := take_digits m1 0 r in (m2, n2, r')
        else (m1, 0, s2)
    | [] => (m1, 0, s2)
    end in
  if (n1 + nfrac) =? 0 then None
  else
    let '(e, s4) := take_exponent s3 in
    Some (round_decimal neg m (e - nfrac), s4).

(** [match_word w s]: [w] (in lower case) is a case-insensitive prefix of
    [s]; yields what follows it. *)
Fixpoint match_word (w s : list ascii) : option (list ascii) :=
  match w, s with
  | [], _ => Some s
  | a :: w', c :: s' =>
      if Ascii.eqb (to_lower c) a then match_word w' s' else None
  | _ :: _, [] => None
  end.

Definition parse_inf_or_nan (s : list ascii) : option (float * list ascii) :=
  let '(neg, s1) := take_sign s in
  match match_word (list_ascii_of_string "inf") s1 with
  | Some r =>
      match match_word (list_ascii_of_string "inity") r with
      | Some r' => Some (S754_infinity neg, r')
      | None => Some (S754_infinity neg, r)
      end
  | None =>
      match match_word (list_ascii_of_string "nan") s1 with
      | Some r => Some (S754_nan, r)
      | None => None
      end
  end.

Definition float_of_chars (s : list ascii) : option float :=
  match strip_underscores None s with
  | None => None
  | Some s0 =>
      let s1 := rev (skip_spaces (rev (skip_spaces s0))) in
      let parsed :=
        match parse_decimal s1 with
        | Some r => Some r
        | None => parse_inf_or_nan s1
        end in
      match parsed with
      | Some (x, []) => Some x
      | _ => None
      end
  end.

(** [float(s)]: [Some x] for the value, [None] for [ValueError]. *)
Definition float_of_string (s : string) : option float :=
  float_of_chars (list_ascii_of_string s).

End PyFloat.

(** ** [parse_flags] *)

Inductive flag := SYN | ACK | FIN | RST.

Definition flag_eqb (a b : flag) : bool :=
  match a, b with
  | SYN, SYN | ACK, ACK | FIN, FIN | RST, RST => true
  | _, _ => false
  end.

(** [name in flags] *)
Definition flag_in (f : flag) (flags : list flag) : bool :=
  existsb (flag_eqb f) flags.

(** The bit tested for each flag name. *)
Definition flag_mask (f : flag) : Z :=
  match f with
  | SYN => 0x02
  | ACK => 0x10
  | FIN => 0x01
  | RST => 0x04
  end.

(** Truth value of [flags_int & mask]. *)
Definition bit_set (flags_int mask : Z) : bool :=
  negb (Z.land flags_int mask =? 0).

Definition parse_flags (flags_str : string) : list flag :=
  match PyInt.int_base0 flags_str with
  | None => []
  | Some flags_int =>
      (if bit_set flags_int 0x02 then [SYN] else []) ++
      (if bit_set flags_int 0x10 then [ACK] else []) ++
      (if bit_set flags_int 0x01 then [FIN] else []) ++
      (if bit_set flags_int 0x04 then [RST] else [])
  end.

(** ** The connection table *)

Definition float : Type := PyFloat.float.

(** [(src_ip, dst_ip, src_port, dst_port)] *)
Definition conn_id : Type := string * string * string * string.

Definition conn_id_eqb (a b : conn_id) : bool :=
  let '(a1, a2, a3, a4) := a in
  let '(b1, b2, b3, b4) := b in
  String.eqb a1 b1 && String.eqb a2 b2 && String.eqb a3 b3 && String.eqb a4 b4.

(** The inner dictionary of one connection: keys ['start'] and ['end'],
    each present or not. *)
Record times := mk_times { t_start : option float; t_end : option float }.

Definition empty_times : times := mk_times None None.
Definition set_start (t : float) (v : times) : times := mk_times (Some t) (t_end v).
Definition set_end (t : float) (v : times) : times := mk_times (t_start v) (Some t).
Definition has_end (v : times) : bool :=
  match t_end v with Some _ => true | None => false end.

(** [defaultdict(dict)], in insertion order. *)
Definition connections : Type := list (conn_id * times).

Fixpoint lookup (k : conn_id) (c : connections) : option times :=
  match c with
  | [] => None
  | (k', v) :: r => if conn_id_eqb k k' then Some v else lookup k r
  end.

(** [k in connections] *)
Definition contains (k : conn_id) (c : connections) : bool :=
  match lookup k c with Some _ => true | None => false end.

(** [connections[k]]: the stored dictionary; a missing key is first bound
    to a fresh empty dictionary, at the end of the table. *)
Definition getitem (k : conn_id) (c : connections) : times * connections :=
  match lookup k c with
  | Some v => (v, c)
  | None => (empty_times, c ++ [(k, empty_times)])
  end.

(** In-place replacement of the dictionary stored under [k]. *)
Fixpoint store (k : conn_id) (v : times) (c : connections) : connections :=
  match c with
  | [] => []
  | (k', v') :: r =>
      if conn_id_eqb k k' then (k', v) :: r else (k', v') :: store k v r
  end.

(** [connections[k][field] = t], with [upd] the update of that field. *)
Definition setitem_field (k : conn_id) (upd : times -> times) (c : connections)
  : connections :=
  let '(v, c') := getitem k c in store k (upd v) c'.

(** ** Outcomes and debug output *)

Inductive exn := ValueError.

Inductive outcome (A : Type) :=
| Return (a : A)
| Raise (e : exn).
Arguments Return {A} a.
Arguments Raise {A} e.

Definition bind {A B} (m : outcome A) (f : A -> outcome B) : outcome B :=
  match m with
  | Return a => f a
  | Raise e => Raise e
  end.

(** The lines [process_tcp_fields] prints. *)
Inductive debug_msg :=
| DbgRow (row : list string)
| DbgSkipRow (row : list string)
| DbgFlags (flags_str : string) (flags : list flag)
| DbgInvalidTime (time_epoch : string)
| DbgStart (k : conn_id) (t : float)
| DbgRstEnd (k : conn_id) (t : float)
| DbgFinAckEnd (k : conn_id) (t : float).

(** ** [process_tcp_fields] *)

(** The body of the [for row in reader] loop, after the six-way unpacking. *)
Definition handle_fields (c : connections)
    (time_epoch src_ip dst_ip src_port dst_port flags_str : string)
  : connections * list debug_msg :=
  let flags := parse_flags flags_str in
  let out0 := [DbgFlags flags_str flags] in
  let k : conn_id := (src_ip, dst_ip, src_port, dst_port) in
  match PyFloat.float_of_string time_epoch with
  | None => (c, out0 ++ [DbgInvalidTime time_epoch])
  | Some t =>
      (* if conn_id not in connections *)
      let '(c1, out1) :=
        if negb (contains k c)
        then (setitem_field k (set_start t) c, out0 ++ [DbgStart k t])
        else (c, out0) in
      (* if 'RST' in flags and 'end' not in connections[conn_id] *)
      let '(rst, c2) :=
        if flag_in RST flags
        then let '(v, c') := getitem k c1 in (negb (has_end v), c')
        else (false, c1) in
      let '(c3, out3) :=
        if rst
        then (setitem_field k (set_end t) c2, out1 ++ [DbgRstEnd k t])
        else (c2, out1) in
      (* if 'FIN' in flags and 'ACK' in flags and 'end' not in connections[conn_id] *)
      let '(finack, c4) :=
        if flag_in FIN flags && flag_in ACK flags
        then let '(v, c') := getitem k c3 in (negb (has_end v), c')
        else (false, c3) in
      if finack
      then (setitem_field k (set_end t) c4, out3 ++ [DbgFinAckEnd k t])
      else (c4, out3)
  end.

(** One iteration of the loop: the new table and the lines printed, or the
    exception raised by unpacking a row that has more than six fields. *)
Definition step_row (c : connections) (row : list string)
  : outcome (connections * list debug_msg) :=
  if (List.length row <? 6)%nat then Return (c, [DbgRow row; DbgSkipRow row])
  else
    match row with
    | [time_epoch; src_ip; dst_ip; src_port; dst_port; flags_str] =>
        let '(c', out) :=
          handle_fields c time_epoch src_ip dst_ip src_port dst_port flags_str in
        Return (c', DbgRow row :: out)
    | _ => Raise ValueError
    end.

(** The whole loop, from table [c]. *)
Fixpoint process_rows (c : connections) (rows : list (list string))
  : outcome (connections * list debug_msg) :=
  match rows with
  | [] => Return (c, [])
  | row :: rest =>
      bind (step_row c row) (fun '(c1, out1) =>
      bind (process_rows c1 rest) (fun '(c2, out2) =>
      Return (c2, out1 ++ out2)))
  end.

(** The export loop over [connections.items()]. *)
Fixpoint export (c : connections) : list (float * float) :=
  match c with
  | [] => []
  | (_, v) :: r =>
      match t_start v with
      | None => export r
      | Some start =>
          let end_ :=
            match t_end v with
            | Some e => e
            | None => PyFloat.add start (PyFloat.of_int 100)
            end in
          (start, PyFloat.sub end_ start) :: export r
      end
  end.

(** The table at the end of the reading loop. *)
Definition final_connections (rows : list (list string)) : outcome connections :=
  bind (process_rows [] rows) (fun '(c, _) => Return c).

(** [process_tcp_fields], on the rows read from the file. *)
Definition process_tcp_fields (rows : list (list string))
  : outcome (list (float * float)) :=
  bind (final_connections rows) (fun c => Return (export c)).

(** ** Specification-side notions *)

(** The flags of an event close a connection: RST, or FIN together with ACK. *)
Definition closes (flags : list flag) : bool :=
  flag_in RST flags || (flag_in FIN flags && flag_in ACK flags).

(** The first six fields of a record that has at least six. *)
Definition record_fields (row : list string) : option (string * conn_id * string) :=
  match row with
  | ts :: a :: b :: p :: q :: fs :: _ => Some (ts, (a, b, p, q), fs)
  | _ => None
  end.

(** A valid record: at least six fields and a timestamp that [float]
    accepts; yields its identity, timestamp and decoded flags. *)
Definition valid_record (row : list string) : option (conn_id * float * list flag) :=
  match record_fields row with
  | Some (ts, k, fs) =>
      match PyFloat.float_of_string ts with
      | Some t => Some (k, t, parse_flags fs)
      | None => None
      end
  | None => None
  end.

(** Timestamp of the first valid record for identity [k]. *)
Fixpoint first_valid_time (rows : list (list string)) (k : conn_id) : option float :=
  match rows with
  | [] => None
  | row :: rest =>
      match valid_record row with
      | Some (k', t, _) =>
          if conn_id_eqb k k' then Some t else first_valid_time rest k
      | None => first_valid_time rest k
      end
  end.

(** The records of identity [k] alone, in order. *)
Definition only_identity (k : conn_id) (rows : list (list string)) : list (list string) :=
  filter (fun row =>
            match valid_record row with
            | Some (k', _, _) => conn_id_eqb k k'
            | None => false
            end) rows.

(** What one valid event does to the table. *)
Definition next_table (c : connections) (k : conn_id) (t : float) (flags : list flag)
  : connections :=
  match lookup k c with
  | None => c ++ [(k, mk_times (Some t) (if closes flags then Some t else None))]
  | Some v => if closes flags && negb (has_end v) then store k (set_end t v) c else c
  end.

(** Every record of the table has its ['start'], and no key is repeated. *)
Definition well_formed (c : connections) : Prop :=
  NoDup (map fst c) /\ forall k v, In (k, v) c -> t_start v <> None.

(** [c'] keeps every record of [c]: same ['start'], and the same ['end']
    once it is set. *)
Definition preserves (c c' : connections) : Prop :=
  forall k v, lookup k c = Some v ->
    exists v', lookup k c' = Some v' /\ t_start v' = t_start v /\
               (has_end v = true -> v' = v).

(** ** The loop as a fold *)

(** What one row does to the table when it raises nothing. *)
Definition apply_row (c : connections) (row : list string) : connections :=
  match valid_record row with
  | Some (k, t, flags) => next_table c k t flags
  | None => c
  end.

Definition apply_rows (c : connections) (rows : list (list string)) : connections :=
  fold_left apply_row rows c.

Definition too_long (row : list string) : bool := (6 <? List.length row)%nat.

(** A row whose effect the table already reflects. *)
Definition settled (c : connections) (row : list string) : Prop :=
  match valid_record row with
  | None => True
  | Some (k, _, flags) =>
      exists v, lookup k c = Some v /\ (closes flags = true -> has_end v = true)
  end.

(** The pair exported for a record. *)
Definition interval_of (v : times) (iv : float * float) : Prop :=
  exists s, t_start v = Some s /\
    iv = (s, PyFloat.sub
               (match t_end v with
                | Some e => e
                | None => PyFloat.add s (PyFloat.of_int 100)
                end) s).

(** No valid record of [k] among [rows] carries closing flags. *)
Definition never_closed (k : conn_id) (rows : list (list string)) : Prop :=
  forall row t flags,
    In row rows -> valid_record row = Some (k, t, flags) -> closes flags = false.

(** [k] has no record yet, or one without ['end']. *)
Definition open_or_absent (k : conn_id) (c : connections) : Prop :=
  match lookup k c with
  | Some v => has_end v = false
  | None => True
  end.

(** How a close was recorded.  The source keeps no cause in the record:
    which of its two branches set ['end'] shows only in the line that
    branch prints. *)
Inductive cause := NONE | RESET | GRACEFUL.

Fixpoint end_cause (k : conn_id) (out : list debug_msg) : cause :=
  match out with
  | [] => NONE
  | DbgRstEnd k' _ :: r => if conn_id_eqb k k' then RESET else end_cause k r
  | DbgFinAckEnd k' _ :: r => if conn_id_eqb k k' then GRACEFUL else end_cause k r
  | _ :: r => end_cause k r
  end.

(** ** Malformed records and literals, in the words of the specification *)

(** The timestamp string denotes a finite real number. *)
Definition parses_as_finite_real (ts : string) : bool :=
  match PyFloat.float_of_string ts with
  | Some x => PyFloat.is_finite x
  | None => false
  end.

(** Malformed in the words of the specification: fewer than six fields,
    or a timestamp (the first field) that does not parse as a finite real
    number. *)
Definition malformed_record (row : list string) : bool :=
  (List.length row <? 6)%nat ||
  match row with
  | ts :: _ => negb (parses_as_finite_real ts)
  | [] => true
  end.

(** The literals the specification names, read as it names them. *)

(** Value of a string of digits of [base], most significant first. *)
Fixpoint digits_value (base acc : Z) (s : list ascii) : option Z :=
  match s with
  | [] => Some acc
  | c :: r =>
      match Chars.digit_value c with
      | Some d => if d <? base then digits_value base (acc * base + d) r else None
      | None => None
      end
  end.

(** A decimal string: one or more of the digits 0-9. *)
Definition decimal_string (s : string) : option Z :=
  match list_ascii_of_string s with
  | [] => None
  | l => digits_value 10 0 l
  end.

(** A [0x]-prefixed hexadecimal string: [0x] and one or more hex digits. *)
Definition hex_string (s : string) : option Z :=
  match list_ascii_of_string s with
  | c0 :: c1 :: ((_ :: _) as l) =>
      if Ascii.eqb c0 "0" && Ascii.eqb c1 "x" then digits_value 16 0 l
      else None
  | _ => None
  end.

Definition leading_zero (s : string) : bool :=
  match s with
  | String c _ => Ascii.eqb c "0"
  | EmptyString => false
  end.

(** ** Concrete inputs *)

(** The record used for C4. *)
Definition row_28_2 : list string :=
  ["28.2"; "10.0.0.1"; "10.0.0.2"; "40000"; "80"; "0x02"]%string.

Definition k1 : conn_id := ("10.0.0.1", "10.0.0.2", "40000", "80")%string.
Definition k2 : conn_id := ("10.0.0.3", "10.0.0.2", "40001", "443")%string.

Definition mk_row (ts : string) (k : conn_id) (fs : string) : list string :=
  let '(a, b, p, q) := k in [ts; a; b; p; q; fs].

(** Two interleaved connections, a short row and a bad timestamp; [k1] is
    reset at 7.0 and sees FIN+ACK at 9.0 and SYN at 10.0 afterwards. *)
Definition example_rows : list (list string) :=
  [ mk_row "5.0" k1 "0x02";
    ["1.0"; "10.0.0.1"; "10.0.0.2"]%string;
    mk_row "bad" k2 "0x02";
    mk_row "6.0" k2 "0x02";
    mk_row "7.0" k1 "0x04";
    mk_row "8.0" k2 "0x10";
    mk_row "9.0" k1 "0x11";
    mk_row "10.0" k1 "0x02" ]%string.

Definition float_lit (s : string) : float :=
  match PyFloat.float_of_string s with
  | Some x => x
  | None => S754_nan
  end.

Definition t5 : float := Eval vm_compute in float_lit "5.0".
Definition t6 : float := Eval vm_compute in float_lit "6.0".
Definition t7 : float := Eval vm_compute in float_lit "7.0".

Definition example_table : connections :=
  [(k1, mk_times (Some t5) (Some t7)); (k2, mk_times (Some t6) None)].

Definition example_out : list (float * float) :=
  Eval vm_compute in
    [(t5, PyFloat.sub t7 t5);
     (t6, PyFloat.sub (PyFloat.add t6 (PyFloat.of_int 100)) t6)].

(** ** Further notions on record sequences *)

(** Timestamp and flags of the first valid record of identity [k] whose
    flags close a connection. *)
Fixpoint first_closing (rows : list (list string)) (k : conn_id)
  : option (float * list flag) :=
  match rows with
  | [] => None
  | row :: rest =>
      match valid_record row with
      | Some (k', t, flags) =>
          if conn_id_eqb k k' && closes flags then Some (t, flags)
          else first_closing rest k
      | None => first_closing rest k
      end
  end.

(** The identities of the valid records, each once, in the order in which
    they first appear. *)
Definition see (seen : list conn_id) (row : list string) : list conn_id :=
  match valid_record row with
  | Some (k, _, _) => if existsb (conn_id_eqb k) seen then seen else seen ++ [k]
  | None => seen
  end.

Definition identities (rows : list (list string)) : list conn_id :=
  fold_left see rows [].

(** The ['start'] entries of a table, in table order. *)
Definition starts (c : connections) : list (option float) :=
  map (fun kv => t_start (snd kv)) c.

(** [k] can still be closed: it has no record, or one without ['end']. *)
Definition is_open (k0 : conn_id) (c0 : connections) : bool :=
  match lookup k0 c0 with
  | Some v => negb (has_end v)
  | None => true
  end.

(** The cause the output shows for a closing record: RESET when its
    flags hold RST, GRACEFUL otherwise. *)
Definition cause_of_close (x : option (float * list flag)) : cause :=
  match x with
  | None => NONE
  | Some (_, flags) => if flag_in RST flags then RESET else GRACEFUL
  end.

(** A timestamp written the plain way, as a capture tool prints seconds
    since the epoch: one or more decimal digits, optionally followed by a
    point and further digits. *)
Definition all_digits (l : list ascii) : bool := forallb Chars.is_dec_digit l.

Definition plain_timestamp (ts : string) : Prop :=
  exists ip fp,
    ip <> [] /\ all_digits ip = true /\ all_digits fp = true /\
    (list_ascii_of_string ts = ip \/
     list_ascii_of_string ts = ip ++ "."%char :: fp).

(** Digits or the point. *)
Definition plain_char (c : ascii) : Prop :=
  Chars.is_dec_digit c = true \/ c = "."%char.

(** The bits [parse_flags] looks at: 0x01, 0x02, 0x04 and 0x10. *)
Definition flag_bits : Z := 0x17.

(** ** The sending loop of [client_q3.py] *)

Module ClientQ3.

(** A slice bound as Python normalises it for a sequence of length [len]:
    a negative index counts from the end, and the result is clipped to
    [0 .. len]. *)
Definition clamp_index (len i : Z) : Z :=
  if i <? 0 then Z.max (i + len) 0 else Z.min i len.

(** [l[a:b]] *)
Definition slice {A : Type} (l : list A) (a b : Z) : list A :=
  let len := Z.of_nat (List.length l) in
  let a' := clamp_index len a in
  let b' := clamp_index len b in
  firstn (Z.to_nat (b' - a')) (skipn (Z.to_nat a') l).

(** ['A' * total_bytes]; empty when [total_bytes] is not positive. *)
Definition make_data (total_bytes : Z) : list ascii :=
  repeat "A"%char (Z.to_nat total_bytes).

(** One pass through the body of the [while] loop: the chunk handed to
    [sendall] and the new value of [bytes_sent]. *)
Definition next_chunk (data : list ascii) (total_bytes chunk_size bytes_sent : Z)
  : list ascii * Z :=
  let current_chunk_size :=
    if bytes_sent + chunk_size >? total_bytes
    then total_bytes - bytes_sent
    else chunk_size in
  let chunk := slice data bytes_sent (bytes_sent + current_chunk_size) in
  (chunk, bytes_sent + Z.of_nat (List.length chunk)).

(** How the loop ends: it runs to its end, a call of [sendall] raises and
    control passes to the [except] handler, or the iterations allotted
    to the model are used up. *)
Inductive loop_result :=
| Finished (sent : list (list ascii * Z))
| Aborted (sent : list (list ascii * Z))
| OutOfFuel.

Definition add_sent (x : list ascii * Z) (r : loop_result) : loop_result :=
  match r with
  | Finished l => Finished (x :: l)
  | Aborted l => Aborted (x :: l)
  | OutOfFuel => OutOfFuel
  end.

(** The [while bytes_sent < total_bytes] loop.  [sendall_ok i] tells
    whether the [i]-th call of [sendall] returns normally; each completed
    iteration is recorded as the chunk sent and the running total printed
    after it. *)
Fixpoint send_loop (fuel : nat) (sendall_ok : nat -> bool) (i : nat)
    (data : list ascii) (total_bytes chunk_size bytes_sent : Z) : loop_result :=
  if bytes_sent <? total_bytes then
    match fuel with
    | O => OutOfFuel
    | S fuel' =>
        let '(chunk, bytes_sent') :=
          next_chunk data total_bytes chunk_size bytes_sent in
        if sendall_ok i then
          add_sent (chunk, bytes_sent')
            (send_loop fuel' sendall_ok (S i) data total_bytes chunk_size bytes_sent')
        else Aborted []
    end
  else Finished [].

(** The loop as [send_data_at_rate] enters it. *)
Definition send_data_loop (fuel : nat) (sendall_ok : nat -> bool)
    (total_bytes rate_bytes_per_second : Z) : loop_result :=
  send_loop fuel sendall_ok 0 (make_data total_bytes)
            total_bytes rate_bytes_per_second 0.

Definition always_ok : nat -> bool := fun _ => true.

(** Number of chunks for a positive rate: [total_bytes / rate] rounded up. *)
Definition chunk_count (total_bytes rate : Z) : nat :=
  Z.to_nat ((total_bytes + rate - 1) / rate).

(** The [j]-th chunk (from 0) and the running total printed after it. *)
Definition expected_chunk (total_bytes rate : Z) (j : nat) : list ascii * Z :=
  (repeat "A"%char (Z.to_nat (Z.min rate (total_bytes - Z.of_nat j * rate))),
   Z.min ((Z.of_nat j + 1) * rate) total_bytes).

End ClientQ3.

(** ** The table as a dictionary *)

Lemma conn_id_eqb_eq (a b : conn_id) : conn_id_eqb a b = true <-> a = b.
Proof.
  destruct a as [[[a1 a2] a3] a4], b as [[[b1 b2] b3] b4]; simpl.
  rewrite !andb_true_iff, !String.eqb_eq. split.
  - intros [[[-> ->] ->] ->]. reflexivity.
  - intros H. inversion H. auto.
Qed.

Lemma conn_id_eqb_refl (a : conn_id) : conn_id_eqb a a = true.
Proof. apply conn_id_eqb_eq. reflexivity. Qed.

Lemma conn_id_eqb_neq (a b : conn_id) : conn_id_eqb a b = false <-> a <> b.
Proof.
  rewrite <- conn_id_eqb_eq. destruct (conn_id_eqb a b); split; congruence.
Qed.

Lemma conn_id_eqb_sym (a b : conn_id) : conn_id_eqb a b = conn_id_eqb b a.
Proof.
  destruct (conn_id_eqb a b) eqn:E; symmetry.
  - apply conn_id_eqb_eq in E. subst. apply conn_id_eqb_refl.
  - apply conn_id_eqb_neq in E. apply conn_id_eqb_neq. congruence.
Qed.

Lemma lookup_app (k : conn_id) (c d : connections) :
  lookup k (c ++ d) =
  match lookup k c with Some v => Some v | None => lookup k d end.
Proof.
  induction c as [|[k' v'] c IH]; simpl; [reflexivity|].
  destruct (conn_id_eqb k k'); auto.
Qed.

Lemma lookup_In (k : conn_id) (v : times) (c : connections) :
  lookup k c = Some v -> In (k, v) c.
Proof.
  induction c as [|[k' v'] c IH]; simpl; [discriminate|].
  destruct (conn_id_eqb k k') eqn:E.
  - apply conn_id_eqb_eq in E. intros [= ->]. subst. now left.
  - intros H. right. auto.
Qed.

Lemma lookup_None_keys (k : conn_id) (c : connections) :
  lookup k c = None <-> ~ In k (map fst c).
Proof.
  induction c as [|[k' v'] c IH]; simpl.
  - split; auto.
  - destruct (conn_id_eqb k k') eqn:E.
    + apply conn_id_eqb_eq in E. subst. split; [discriminate | intros H; exfalso; auto].
    + apply conn_id_eqb_neq in E. rewrite IH. split.
      * intros H [H1 | H1]; [congruence | auto].
      * intros H H1. apply H. now right.
Qed.

Lemma In_lookup (k : conn_id) (v : times) (c : connections) :
  NoDup (map fst c) -> In (k, v) c -> lookup k c = Some v.
Proof.
  induction c as [|[k' v'] c IH]; simpl; [tauto|].
  intros Hnd [H | H].
  - inversion H; subst. now rewrite conn_id_eqb_refl.
  - inversion Hnd as [|? ? Hnot Hnd']; subst.
    destruct (conn_id_eqb k k') eqn:E.
    + apply conn_id_eqb_eq in E. subst. exfalso. apply Hnot.
      change k' with (fst (k', v)). now apply in_map.
    + auto.
Qed.

Lemma store_absent (k : conn_id) (v : times) (c : connections) :
  lookup k c = None -> store k v c = c.
Proof.
  induction c as [|[k' v'] c IH]; simpl; [reflexivity|].
  destruct (conn_id_eqb k k'); [discriminate|].
  intros H. now rewrite IH.
Qed.

Lemma store_app_new (k : conn_id) (v v' : times) (c : connections) :
  lookup k c = None -> store k v' (c ++ [(k, v)]) = c ++ [(k, v')].
Proof.
  induction c as [|[k0 v0] c IH]; simpl.
  - now rewrite conn_id_eqb_refl.
  - destruct (conn_id_eqb k k0); [discriminate|].
    intros H. now rewrite IH.
Qed.

Lemma store_same (k : conn_id) (v : times) (c : connections) :
  lookup k c = Some v -> store k v c = c.
Proof.
  induction c as [|[k' v'] c IH]; simpl; [reflexivity|].
  destruct (conn_id_eqb k k').
  - now intros [= ->].
  - intros H. now rewrite IH.
Qed.

Lemma lookup_store (k k' : conn_id) (v : times) (c : connections) :
  lookup k' (store k v c) =
  if conn_id_eqb k' k
  then match lookup k c with Some _ => Some v | None => None end
  else lookup k' c.
Proof.
  induction c as [|[k0 v0] c IH]; simpl.
  - now destruct (conn_id_eqb k' k).
  - destruct (conn_id_eqb k k0) eqn:E; simpl.
    + apply conn_id_eqb_eq in E. subst k0.
      now destruct (conn_id_eqb k' k).
    + destruct (conn_id_eqb k' k0) eqn:E'.
      * apply conn_id_eqb_eq in E'. subst k0.
        rewrite conn_id_eqb_sym in E. now rewrite E.
      * apply IH.
Qed.

Lemma keys_store (k : conn_id) (v : times) (c : connections) :
  map fst (store k v c) = map fst c.
Proof.
  induction c as [|[k' v'] c IH]; simpl; [reflexivity|].
  destruct (conn_id_eqb k k'); simpl; [reflexivity | now rewrite IH].
Qed.

Lemma In_store (k k0 : conn_id) (v v0 : times) (c : connections) :
  In (k0, v0) (store k v c) -> In (k0, v0) c \/ (k0 = k /\ v0 = v).
Proof.
  induction c as [|[k' v'] c IH]; simpl; [tauto|].
  destruct (conn_id_eqb k k') eqn:E; simpl.
  - apply conn_id_eqb_eq in E. subst k'.
    intros [H | H]; [inversion H; auto | auto].
  - intros [H | H]; [auto | destruct (IH H); auto].
Qed.

Lemma setitem_field_new (k : conn_id) (upd : times -> times) (c : connections) :
  lookup k c = None -> setitem_field k upd c = c ++ [(k, upd empty_times)].
Proof.
  intros H. unfold setitem_field, getitem. rewrite H.
  now apply store_app_new.
Qed.

Lemma setitem_field_old (k : conn_id) (upd : times -> times) (c : connections) (v : times) :
  lookup k c = Some v -> setitem_field k upd c = store k (upd v) c.
Proof.
  intros H. unfold setitem_field, getitem. now rewrite H.
Qed.

Lemma getitem_old (k : conn_id) (c : connections) (v : times) :
  lookup k c = Some v -> getitem k c = (v, c).
Proof. intros H. unfold getitem. now rewrite H. Qed.

Lemma lookup_store_same (k : conn_id) (v v' : times) (c : connections) :
  lookup k c = Some v -> lookup k (store k v' c) = Some v'.
Proof. intros H. now rewrite lookup_store, conn_id_eqb_refl, H. Qed.

Lemma lookup_app_new (k : conn_id) (v : times) (c : connections) :
  lookup k c = None -> lookup k (c ++ [(k, v)]) = Some v.
Proof.
  intros H. rewrite lookup_app, H. cbn [lookup]. now rewrite conn_id_eqb_refl.
Qed.

(** ** One event *)

Section OneEvent.

Variables (c : connections) (ts a b p q fs : string).

Let k : conn_id := (a, b, p, q).

Lemma handle_fields_invalid :
  PyFloat.float_of_string ts = None ->
  handle_fields c ts a b p q fs =
  (c, [DbgFlags fs (parse_flags fs); DbgInvalidTime ts]).
Proof. intros H. unfold handle_fields. now rewrite H. Qed.

(** The table after a valid event is [next_table]. *)
Lemma handle_fields_table (t : float) :
  PyFloat.float_of_string ts = Some t ->
  fst (handle_fields c ts a b p q fs) = next_table c k t (parse_flags fs).
Proof.
  intros H. unfold handle_fields, next_table, closes, contains. rewrite H.
  fold k. set (fl := parse_flags fs).
  destruct (lookup k c) as [v|] eqn:L; simpl negb; cbv iota.
  - destruct (flag_in RST fl); simpl orb.
    + rewrite (getitem_old _ _ _ L).
      destruct (has_end v) eqn:E; simpl negb; cbv iota.
      * destruct (flag_in FIN fl && flag_in ACK fl); [|reflexivity].
        rewrite (getitem_old _ _ _ L), E. reflexivity.
      * rewrite (setitem_field_old _ _ _ _ L).
        destruct (flag_in FIN fl && flag_in ACK fl); [|reflexivity].
        rewrite (getitem_old _ _ _ (lookup_store_same _ _ (set_end t v) _ L)).
        reflexivity.
    + destruct (flag_in FIN fl && flag_in ACK fl); simpl andb; [|reflexivity].
      rewrite (getitem_old _ _ _ L).
      destruct (has_end v); simpl negb; cbv iota; [reflexivity|].
      now rewrite (setitem_field_old _ _ _ _ L).
  - rewrite (setitem_field_new _ _ _ L).
    pose proof (lookup_app_new _ (set_start t empty_times) _ L) as L1.
    destruct (flag_in RST fl); simpl orb.
    + rewrite (getitem_old _ _ _ L1). simpl negb. cbv iota.
      rewrite (setitem_field_old _ _ _ _ L1), (store_app_new _ _ _ _ L).
      pose proof (lookup_app_new _ (set_end t (set_start t empty_times)) _ L) as L2.
      destruct (flag_in FIN fl && flag_in ACK fl); [|reflexivity].
      rewrite (getitem_old _ _ _ L2). reflexivity.
    + destruct (flag_in FIN fl && flag_in ACK fl); simpl andb; [|reflexivity].
      rewrite (getitem_old _ _ _ L1). simpl negb. cbv iota.
      now rewrite (setitem_field_old _ _ _ _ L1), (store_app_new _ _ _ _ L).
Qed.

End OneEvent.

(** ** One row, and the whole loop *)

Lemma step_row_short (c : connections) (row : list string) :
  (List.length row < 6)%nat ->
  step_row c row = Return (c, [DbgRow row; DbgSkipRow row]).
Proof.
  intros H. unfold step_row.
  destruct (Nat.ltb_spec (List.length row) 6); [reflexivity | lia].
Qed.

Lemma step_row_six (c : connections) (ts a b p q fs : string) :
  step_row c [ts; a; b; p; q; fs] =
  Return (fst (handle_fields c ts a b p q fs),
          DbgRow [ts; a; b; p; q; fs] :: snd (handle_fields c ts a b p q fs)).
Proof.
  unfold step_row. simpl.
  now destruct (handle_fields c ts a b p q fs).
Qed.

Lemma step_row_long (c : connections) (row : list string) :
  (6 < List.length row)%nat -> step_row c row = Raise ValueError.
Proof.
  intros H. unfold step_row.
  destruct (Nat.ltb_spec (List.length row) 6); [lia|].
  do 7 (destruct row as [|? row]; simpl in H; try lia). reflexivity.
Qed.

Lemma valid_record_short (row : list string) :
  (List.length row < 6)%nat -> valid_record row = None.
Proof.
  intros H. unfold valid_record, record_fields.
  do 6 (destruct row as [|? row]; [reflexivity|]). simpl in H. lia.
Qed.

(** A row of at most six fields goes through, and the table moves by
    [apply_row]. *)
Lemma step_row_ok (c : connections) (row : list string) :
  too_long row = false ->
  exists out, step_row c row = Return (apply_row c row, out).
Proof.
  unfold too_long. intros H. apply Nat.ltb_ge in H.
  destruct (Nat.lt_ge_cases (List.length row) 6) as [Hs | Hs].
  - rewrite (step_row_short _ _ Hs). unfold apply_row.
    rewrite (valid_record_short _ Hs). eauto.
  - do 6 (destruct row as [|? row]; [simpl in Hs; lia|]).
    destruct row; [|simpl in H; lia].
    rewrite step_row_six. eexists. f_equal. f_equal.
    unfold apply_row, valid_record, record_fields.
    destruct (PyFloat.float_of_string s) as [t|] eqn:E.
    + now apply handle_fields_table.
    + now rewrite handle_fields_invalid.
Qed.

Lemma step_row_raise (c : connections) (row : list string) :
  too_long row = true -> step_row c row = Raise ValueError.
Proof. unfold too_long. intros H. apply Nat.ltb_lt in H. now apply step_row_long. Qed.

Lemma process_rows_ok (rows : list (list string)) : forall c,
  existsb too_long rows = false ->
  exists out, process_rows c rows = Return (apply_rows c rows, out).
Proof.
  induction rows as [|row rest IH]; intros c H; simpl in *.
  - eauto.
  - apply orb_false_iff in H. destruct H as [H1 H2].
    destruct (step_row_ok c row H1) as [out1 ->]. simpl.
    destruct (IH (apply_row c row) H2) as [out2 ->]. simpl. eauto.
Qed.

Lemma process_rows_raise (rows : list (list string)) : forall c,
  existsb too_long rows = true -> process_rows c rows = Raise ValueError.
Proof.
  induction rows as [|row rest IH]; intros c H; simpl in *; [discriminate|].
  destruct (too_long row) eqn:E.
  - now rewrite (step_row_raise _ _ E).
  - destruct (step_row_ok c row E) as [out1 ->]. simpl in *.
    now rewrite (IH _ H).
Qed.

Lemma final_connections_ok (rows : list (list string)) :
  existsb too_long rows = false ->
  final_connections rows = Return (apply_rows [] rows).
Proof.
  intros H. unfold final_connections.
  now destruct (process_rows_ok rows [] H) as [out ->].
Qed.

Lemma final_connections_raise (rows : list (list string)) :
  existsb too_long rows = true -> final_connections rows = Raise ValueError.
Proof.
  intros H. unfold final_connections. now rewrite (process_rows_raise _ _ H).
Qed.

(** [process_tcp_fields] returns whenever no row has more than six fields. *)
Lemma process_tcp_fields_returns (rows : list (list string)) :
  existsb too_long rows = false ->
  process_tcp_fields rows = Return (export (apply_rows [] rows)).
Proof.
  intros H. unfold process_tcp_fields. now rewrite (final_connections_ok _ H).
Qed.

(** A run that returns had no row of more than six fields. *)
Lemma final_connections_inv (rows : list (list string)) (c : connections) :
  final_connections rows = Return c ->
  existsb too_long rows = false /\ c = apply_rows [] rows.
Proof.
  intros H. destruct (existsb too_long rows) eqn:E.
  - rewrite (final_connections_raise _ E) in H. discriminate.
  - rewrite (final_connections_ok _ E) in H. inversion H. auto.
Qed.

Lemma apply_rows_cons (c : connections) (row : list string) (rest : list (list string)) :
  apply_rows c (row :: rest) = apply_rows (apply_row c row) rest.
Proof. reflexivity. Qed.

Lemma apply_row_six (c : connections) (ts a b p q fs : string) (t : float) :
  PyFloat.float_of_string ts = Some t ->
  apply_row c [ts; a; b; p; q; fs] = next_table c (a, b, p, q) t (parse_flags fs).
Proof.
  intros H. unfold apply_row, valid_record, record_fields. now rewrite H.
Qed.

Lemma apply_rows_app (c : connections) (r1 r2 : list (list string)) :
  apply_rows c (r1 ++ r2) = apply_rows (apply_rows c r1) r2.
Proof. apply fold_left_app. Qed.

(** ** What an event preserves *)

Section NextTable.

Variables (c : connections) (k : conn_id) (t : float) (flags : list flag).

Lemma next_table_other (k' : conn_id) :
  k' <> k -> lookup k' (next_table c k t flags) = lookup k' c.
Proof.
  intros Hne. apply conn_id_eqb_neq in Hne. unfold next_table.
  destruct (lookup k c) as [v|] eqn:L.
  - destruct (closes flags && negb (has_end v)); [|reflexivity].
    now rewrite lookup_store, Hne.
  - rewrite lookup_app. destruct (lookup k' c); [reflexivity|].
    cbn [lookup]. now rewrite Hne.
Qed.

Lemma next_table_new :
  lookup k c = None ->
  lookup k (next_table c k t flags) =
  Some (mk_times (Some t) (if closes flags then Some t else None)).
Proof. intros L. unfold next_table. rewrite L. now apply lookup_app_new. Qed.

Lemma next_table_old (v : times) :
  lookup k c = Some v ->
  lookup k (next_table c k t flags) =
  Some (if closes flags && negb (has_end v) then set_end t v else v).
Proof.
  intros L. unfold next_table. rewrite L.
  destruct (closes flags && negb (has_end v)); [|assumption].
  now apply lookup_store_same with (v := v).
Qed.

Lemma next_table_keys :
  map fst (next_table c k t flags) =
  if contains k c then map fst c else map fst c ++ [k].
Proof.
  unfold next_table, contains. destruct (lookup k c) as [v|].
  - destruct (closes flags && negb (has_end v)); [apply keys_store | reflexivity].
  - now rewrite map_app.
Qed.

Lemma next_table_preserves : preserves c (next_table c k t flags).
Proof.
  intros k' v' L'.
  destruct (conn_id_eqb k' k) eqn:E.
  - apply conn_id_eqb_eq in E. subst k'.
    rewrite (next_table_old _ L'). eexists. split; [reflexivity|].
    destruct (has_end v') eqn:He.
    + rewrite andb_false_r. auto.
    + destruct (closes flags); simpl; split; auto; discriminate.
  - apply conn_id_eqb_neq in E. rewrite (next_table_other _ E).
    exists v'. auto.
Qed.

Lemma next_table_well_formed : well_formed c -> well_formed (next_table c k t flags).
Proof.
  intros [Hnd Hst]. split.
  - rewrite next_table_keys. unfold contains.
    destruct (lookup k c) as [v|] eqn:L; [assumption|].
    apply lookup_None_keys in L.
    apply NoDup_app; [assumption | repeat constructor; simpl; tauto |].
    intros x Hx [<- | []]. auto.
  - intros k0 v0. unfold next_table.
    destruct (lookup k c) as [v|] eqn:L.
    + destruct (closes flags && negb (has_end v)); [|apply Hst].
      intros H. apply In_store in H. destruct H as [H | [-> ->]]; [eauto|].
      simpl. apply lookup_In in L. eauto.
    + intros H. apply in_app_or in H. destruct H as [H | [H | []]]; [eauto|].
      inversion H; subst. simpl. discriminate.
Qed.

End NextTable.

(** ** Invariants of the loop *)

Lemma preserves_refl (c : connections) : preserves c c.
Proof. intros k v L. exists v. auto. Qed.

Lemma preserves_trans (c1 c2 c3 : connections) :
  preserves c1 c2 -> preserves c2 c3 -> preserves c1 c3.
Proof.
  intros H12 H23 k v L.
  destruct (H12 k v L) as (v2 & L2 & S2 & E2).
  destruct (H23 k v2 L2) as (v3 & L3 & S3 & E3).
  exists v3. split; [assumption|]. split; [congruence|].
  intros He. specialize (E2 He). subst v2. auto.
Qed.

Lemma apply_row_preserves (c : connections) (row : list string) :
  preserves c (apply_row c row).
Proof.
  unfold apply_row. destruct (valid_record row) as [[[k t] fl]|].
  - apply next_table_preserves.
  - apply preserves_refl.
Qed.

Lemma apply_rows_preserves (rows : list (list string)) : forall c,
  preserves c (apply_rows c rows).
Proof.
  induction rows as [|row rest IH]; intros c; simpl.
  - apply preserves_refl.
  - eapply preserves_trans; [apply apply_row_preserves | apply IH].
Qed.

Lemma well_formed_nil : well_formed [].
Proof. split; [constructor | intros k v []]. Qed.

Lemma apply_row_well_formed (c : connections) (row : list string) :
  well_formed c -> well_formed (apply_row c row).
Proof.
  unfold apply_row. destruct (valid_record row) as [[[k t] fl]|]; [|auto].
  apply next_table_well_formed.
Qed.

Lemma apply_rows_well_formed (rows : list (list string)) : forall c,
  well_formed c -> well_formed (apply_rows c rows).
Proof.
  induction rows as [|row rest IH]; intros c H; simpl; [assumption|].
  apply IH. now apply apply_row_well_formed.
Qed.

Lemma settled_apply (c : connections) (row : list string) :
  settled c row -> apply_row c row = c.
Proof.
  unfold settled, apply_row.
  destruct (valid_record row) as [[[k t] fl]|]; [|reflexivity].
  intros (v & L & H). unfold next_table. rewrite L.
  destruct (closes fl); [|reflexivity].
  now rewrite (H eq_refl).
Qed.

Lemma apply_row_settles (c : connections) (row : list string) :
  settled (apply_row c row) row.
Proof.
  unfold settled, apply_row.
  destruct (valid_record row) as [[[k t] fl]|]; [|exact I].
  destruct (lookup k c) as [v|] eqn:L.
  - rewrite (next_table_old _ _ t fl _ L). eexists. split; [reflexivity|].
    intros Hc. rewrite Hc. destruct (has_end v) eqn:He; simpl; auto.
  - rewrite (next_table_new _ _ t fl L). eexists. split; [reflexivity|].
    intros Hc. now rewrite Hc.
Qed.

Lemma settled_preserved (c c' : connections) (row : list string) :
  preserves c c' -> settled c row -> settled c' row.
Proof.
  unfold settled. intros Hp.
  destruct (valid_record row) as [[[k t] fl]|]; [|auto].
  intros (v & L & H). destruct (Hp k v L) as (v' & L' & _ & E).
  exists v'. split; [assumption|].
  intros Hc. specialize (H Hc). now rewrite (E H).
Qed.

Lemma apply_rows_settles (rows : list (list string)) : forall c row,
  In row rows -> settled (apply_rows c rows) row.
Proof.
  induction rows as [|r rest IH]; intros c row Hin; simpl in *; [contradiction|].
  destruct Hin as [-> | Hin].
  - eapply settled_preserved; [apply apply_rows_preserves | apply apply_row_settles].
  - now apply IH.
Qed.

Lemma settled_apply_rows (rows : list (list string)) (c : connections) :
  (forall row, In row rows -> settled c row) -> apply_rows c rows = c.
Proof.
  induction rows as [|r rest IH]; intros H; simpl; [reflexivity|].
  rewrite (settled_apply c r) by (apply H; now left).
  apply IH. intros row Hin. apply H. now right.
Qed.

(** ** Where ['start'] comes from *)

Lemma apply_rows_start_old (rows : list (list string)) (c : connections)
    (k : conn_id) (v : times) :
  lookup k c = Some v ->
  exists v', lookup k (apply_rows c rows) = Some v' /\ t_start v' = t_start v.
Proof.
  intros L. destruct (apply_rows_preserves rows c k v L) as (v' & L' & S' & _).
  eauto.
Qed.

Lemma apply_rows_start_new (rows : list (list string)) : forall c k,
  lookup k c = None ->
  match first_valid_time rows k with
  | Some t => exists v', lookup k (apply_rows c rows) = Some v' /\ t_start v' = Some t
  | None => lookup k (apply_rows c rows) = None
  end.
Proof.
  induction rows as [|row rest IH]; intros c k L; simpl; [assumption|].
  unfold apply_row.
  destruct (valid_record row) as [[[k0 t0] fl0]|]; [|now apply IH].
  destruct (conn_id_eqb k k0) eqn:E.
  - apply conn_id_eqb_eq in E. subst k0.
    pose proof (next_table_new c k t0 fl0 L) as L1.
    destruct (apply_rows_start_old rest _ _ _ L1) as (v' & L' & S').
    exists v'. auto.
  - apply conn_id_eqb_neq in E. apply IH.
    now rewrite next_table_other.
Qed.

Lemma first_valid_time_only (k : conn_id) (rows : list (list string)) :
  first_valid_time rows k = first_valid_time (only_identity k rows) k.
Proof.
  induction rows as [|row rest IH]; simpl; [reflexivity|].
  destruct (valid_record row) as [[[k0 t0] fl0]|] eqn:V.
  - destruct (conn_id_eqb k k0) eqn:E; simpl; [|assumption].
    now rewrite V, E.
  - assumption.
Qed.

Lemma first_valid_time_some (k : conn_id) (rows : list (list string)) :
  first_valid_time rows k <> None <->
  exists row t flags, In row rows /\ valid_record row = Some (k, t, flags).
Proof.
  induction rows as [|row rest IH]; simpl.
  - split; [congruence | intros (? & ? & ? & [] & _)].
  - destruct (valid_record row) as [[[k0 t0] fl0]|] eqn:V.
    + destruct (conn_id_eqb k k0) eqn:E.
      * apply conn_id_eqb_eq in E. subst k0. split; [|discriminate].
        intros _. exists row, t0, fl0. auto.
      * apply conn_id_eqb_neq in E. rewrite IH. split.
        -- intros (r & t & fl & Hin & Hv). exists r, t, fl. auto.
        -- intros (r & t & fl & [<- | Hin] & Hv); [congruence|].
           exists r, t, fl. auto.
    + rewrite IH. split.
      * intros (r & t & fl & Hin & Hv). exists r, t, fl. auto.
      * intros (r & t & fl & [<- | Hin] & Hv); [congruence|].
        exists r, t, fl. auto.
Qed.

(** ** The exporter *)

Lemma export_Forall2 (c : connections) :
  (forall k v, In (k, v) c -> t_start v <> None) ->
  Forall2 (fun kv iv => interval_of (snd kv) iv) c (export c).
Proof.
  induction c as [|[k v] c IH]; intros H; simpl; [constructor|].
  destruct (t_start v) as [s|] eqn:S.
  - constructor.
    + exists s. simpl. auto.
    + apply IH. intros k0 v0 Hin. apply (H k0 v0). now right.
  - exfalso. apply (H k v); [now left | assumption].
Qed.

Lemma Forall2_with_In {A B : Type} (P : A -> Prop) (R : A -> B -> Prop)
    (l : list A) (l' : list B) :
  (forall a, In a l -> P a) -> Forall2 R l l' ->
  Forall2 (fun a b => P a /\ R a b) l l'.
Proof.
  intros HP HR. induction HR as [|a b l l' Hab HR IH]; constructor.
  - split; [apply HP; now left | assumption].
  - apply IH. intros a' Hin. apply HP. now right.
Qed.

Lemma final_table_facts (rows : list (list string)) (c : connections) :
  final_connections rows = Return c ->
  well_formed c /\
  (forall k v, In (k, v) c ->
     lookup k c = Some v /\
     exists s, t_start v = Some s /\ first_valid_time rows k = Some s) /\
  (forall k, first_valid_time rows k <> None -> In k (map fst c)).
Proof.
  intros H. apply final_connections_inv in H. destruct H as [_ ->].
  pose proof (apply_rows_well_formed rows [] well_formed_nil) as WF.
  split; [assumption|]. split.
  - intros k v Hin. destruct WF as [Hnd Hst].
    pose proof (In_lookup _ _ _ Hnd Hin) as L. split; [assumption|].
    pose proof (apply_rows_start_new rows [] k eq_refl) as Hs.
    destruct (first_valid_time rows k) as [t|].
    + destruct Hs as (v' & L' & S'). exists t. split; congruence.
    + congruence.
  - intros k Hk.
    pose proof (apply_rows_start_new rows [] k eq_refl) as Hs.
    destruct (first_valid_time rows k) as [t|]; [|congruence].
    destruct Hs as (v' & L' & _).
    apply lookup_In in L'. change k with (fst (k, v')). now apply in_map.
Qed.

(** * The claims *)

(** ** C1 *)

(** C1. Whenever [process_tcp_fields] returns, each exported pair belongs,
    position by position, to one identity of the final table, and its
    start is the timestamp of the first valid record (at least six fields,
    timestamp accepted by [float]) of that identity.  That timestamp
    depends only on the records of the identity itself, however records of
    other identities are interleaved, and a start recorded after any
    prefix of the input is still the start at the end: it is never
    overwritten. *)
Theorem C1_start_is_first_valid_timestamp :
  forall (rows : list (list string)) (out : list (float * float)),
    process_tcp_fields rows = Return out ->
    exists c,
      final_connections rows = Return c /\
      Forall2 (fun kv iv =>
                 first_valid_time rows (fst kv) = Some (fst iv) /\
                 t_start (snd kv) = Some (fst iv)) c out /\
      (forall k, first_valid_time rows k = first_valid_time (only_identity k rows) k) /\
      (forall pre post c1 k v1,
          rows = pre ++ post ->
          final_connections pre = Return c1 ->
          lookup k c1 = Some v1 ->
          exists v, lookup k c = Some v /\ t_start v = t_start v1).
Proof.
  intros rows out H. unfold process_tcp_fields in H.
  destruct (final_connections rows) as [c|e] eqn:F; simpl in H; [|discriminate].
  inversion H; subst out; clear H. exists c. split; [reflexivity|].
  destruct (final_table_facts _ _ F) as ((Hnd & Hst) & Hfirst & _).
  split; [|split].
  - assert (Hall : forall kv, In kv c ->
              exists s, t_start (snd kv) = Some s /\
                        first_valid_time rows (fst kv) = Some s).
    { intros [k v] Hin. apply (Hfirst k v Hin). }
    pose proof (Forall2_with_In _ _ _ _ Hall (export_Forall2 c Hst)) as HF.
    eapply Forall2_impl; [|exact HF]. simpl.
    intros [k v] iv ((s & S1 & S2) & (s' & S3 & ->)). simpl in *.
    split; congruence.
  - intros k. apply first_valid_time_only.
  - intros pre post c1 k v1 -> F1 L1.
    apply final_connections_inv in F. destruct F as [_ ->].
    apply final_connections_inv in F1. destruct F1 as [_ ->].
    rewrite apply_rows_app. now apply apply_rows_start_old.
Qed.

(** ** C7 *)

(** C7. Processing a record sequence followed by itself gives the same
    final table (every start and end, in the same order) and the same
    exported intervals as processing it once; when the single pass raises,
    so does the doubled one. *)
Theorem C7_reprocessing_changes_nothing :
  forall rows : list (list string),
    final_connections (rows ++ rows) = final_connections rows /\
    process_tcp_fields (rows ++ rows) = process_tcp_fields rows.
Proof.
  intros rows.
  assert (F : final_connections (rows ++ rows) = final_connections rows).
  { destruct (existsb too_long rows) eqn:E.
    - rewrite (final_connections_raise rows E).
      apply final_connections_raise. rewrite existsb_app, E. reflexivity.
    - rewrite (final_connections_ok rows E).
      rewrite final_connections_ok by (rewrite existsb_app, E; reflexivity).
      f_equal. rewrite apply_rows_app. apply settled_apply_rows.
      intros row Hin. now apply apply_rows_settles. }
  split; [assumption|]. unfold process_tcp_fields. now rewrite F.
Qed.

(** ** C8 *)

(** C8. Whenever [process_tcp_fields] returns, the final table holds each
    identity once, namely the identities of the valid records; the export
    has one pair per record of the table, in the same order, none left
    out; the first component is the record's start and, when the record
    has an end, the second is [end - start] in binary64 arithmetic,
    whatever its sign. *)
Theorem C8_one_interval_per_identity :
  forall (rows : list (list string)) (out : list (float * float)),
    process_tcp_fields rows = Return out ->
    exists c,
      final_connections rows = Return c /\
      NoDup (map fst c) /\
      (forall k, In k (map fst c) <->
                 exists row t flags, In row rows /\ valid_record row = Some (k, t, flags)) /\
      List.length out = List.length c /\
      Forall2 (fun kv iv =>
                 t_start (snd kv) = Some (fst iv) /\
                 forall e, t_end (snd kv) = Some e ->
                           snd iv = PyFloat.sub e (fst iv)) c out.
Proof.
  intros rows out H. unfold process_tcp_fields in H.
  destruct (final_connections rows) as [c|e] eqn:F; simpl in H; [|discriminate].
  inversion H; subst out; clear H. exists c. split; [reflexivity|].
  destruct (final_table_facts _ _ F) as ((Hnd & Hst) & Hfirst & Hkeys).
  pose proof (export_Forall2 c Hst) as HF.
  split; [assumption|]. split; [|split].
  - intros k. rewrite <- first_valid_time_some. split.
    + intros Hin. apply in_map_iff in Hin. destruct Hin as ([k' v] & <- & Hin).
      simpl. destruct (Hfirst _ _ Hin) as (_ & s & _ & ->). discriminate.
    + apply Hkeys.
  - symmetry. eapply Forall2_length. exact HF.
  - eapply Forall2_impl; [|exact HF]. simpl.
    intros [k v] iv (s & S1 & ->). simpl in *. split; [assumption|].
    intros e ->. reflexivity.
Qed.

(** ** C9 *)

(** C9. An input that contains a record of more than six fields makes
    [process_tcp_fields] raise [ValueError]: nothing is exported. *)
Theorem C9_extra_field_aborts :
  forall rows : list (list string),
    (exists row, In row rows /\ (6 < List.length row)%nat) ->
    process_tcp_fields rows = Raise ValueError.
Proof.
  intros rows (row & Hin & Hlen). unfold process_tcp_fields.
  rewrite final_connections_raise; [reflexivity|].
  apply existsb_exists. exists row. split; [assumption|].
  unfold too_long. now apply Nat.ltb_lt.
Qed.

(** ** Closed and open identities *)

Lemma process_rows_inv (c c' : connections) (rows : list (list string))
    (out : list debug_msg) :
  process_rows c rows = Return (c', out) -> c' = apply_rows c rows.
Proof.
  intros H. destruct (existsb too_long rows) eqn:E.
  - rewrite (process_rows_raise _ _ E) in H. discriminate.
  - destruct (process_rows_ok rows c E) as [out' H']. congruence.
Qed.

Lemma apply_rows_closed (rows : list (list string)) (c : connections)
    (k : conn_id) (v : times) :
  lookup k c = Some v -> has_end v = true ->
  lookup k (apply_rows c rows) = Some v.
Proof.
  intros L He. destruct (apply_rows_preserves rows c k v L) as (v' & L' & _ & E).
  now rewrite L', (E He).
Qed.

Lemma apply_rows_stays_open (k : conn_id) (rows : list (list string)) : forall c,
  never_closed k rows -> open_or_absent k c ->
  open_or_absent k (apply_rows c rows).
Proof.
  induction rows as [|row rest IH]; intros c Hn Ho; simpl; [assumption|].
  apply IH.
  - intros r t fl Hin. apply Hn. now right.
  - unfold apply_row. destruct (valid_record row) as [[[k0 t0] fl0]|] eqn:V;
      [|assumption].
    unfold open_or_absent in *. destruct (conn_id_eqb k k0) eqn:E.
    + apply conn_id_eqb_eq in E. subst k0.
      assert (Hc : closes fl0 = false) by (apply (Hn row t0 fl0); [now left | assumption]).
      destruct (lookup k c) as [v|] eqn:L.
      * rewrite (next_table_old _ _ t0 fl0 _ L), Hc. assumption.
      * rewrite (next_table_new _ _ t0 fl0 L), Hc. reflexivity.
    + apply conn_id_eqb_neq in E. now rewrite next_table_other.
Qed.

Lemma export_In (c : connections) (k : conn_id) (v : times) (s : float) :
  In (k, v) c -> t_start v = Some s ->
  In (s, PyFloat.sub
           (match t_end v with
            | Some e => e
            | None => PyFloat.add s (PyFloat.of_int 100)
            end) s) (export c).
Proof.
  induction c as [|[k0 v0] c IH]; simpl; [tauto|].
  intros [H | H] S.
  - inversion H; subst. rewrite S. now left.
  - destruct (t_start v0); [right|]; auto.
Qed.

(** An event with RST on an identity that is open or not yet seen. *)
Lemma next_table_reset (c : connections) (k : conn_id) (t : float) (flags : list flag) :
  closes flags = true -> open_or_absent k c ->
  exists v, lookup k (next_table c k t flags) = Some v /\ t_end v = Some t.
Proof.
  intros Hc Ho. unfold open_or_absent in Ho.
  destruct (lookup k c) as [v|] eqn:L.
  - rewrite (next_table_old _ _ t flags _ L), Hc, Ho. simpl. eauto.
  - rewrite (next_table_new _ _ t flags L), Hc. eauto.
Qed.

(** ** C2 *)

(** C2. (1) A record whose end is set is left exactly as it is by every
    further row, whatever its flags (RST, FIN+ACK, SYN, ...).
    (2) When the first closing event of an identity carries RST and has
    timestamp [t1], the final end of that identity is [t1] whatever
    follows, a later FIN+ACK included, and the exported pair is
    [(start, t1 - start)]. *)
Theorem C2_first_close_wins :
  (forall (c c' : connections) (rows : list (list string)) (out : list debug_msg)
          (k : conn_id) (v : times),
      process_rows c rows = Return (c', out) ->
      lookup k c = Some v -> has_end v = true ->
      lookup k c' = Some v) /\
  (forall (pre rest : list (list string)) (ts1 a b p q fs1 : string)
          (t1 : float) (c : connections),
      PyFloat.float_of_string ts1 = Some t1 ->
      flag_in RST (parse_flags fs1) = true ->
      never_closed (a, b, p, q) pre ->
      final_connections (pre ++ [ts1; a; b; p; q; fs1] :: rest) = Return c ->
      exists v s,
        lookup (a, b, p, q) c = Some v /\ t_start v = Some s /\
        t_end v = Some t1 /\ In (s, PyFloat.sub t1 s) (export c)).
Proof.
  split.
  - intros c c' rows out k v H L He.
    apply process_rows_inv in H. subst c'. now apply apply_rows_closed.
  - intros pre rest ts1 a b p q fs1 t1 c Hts Hrst Hn F.
    destruct (final_table_facts _ _ F) as ((Hnd & Hst) & _ & _).
    apply final_connections_inv in F. destruct F as [_ ->].
    set (k := (a, b, p, q)) in *.
    set (c1 := apply_rows [] pre).
    assert (Ho : open_or_absent k c1) by (apply apply_rows_stays_open; [assumption | exact I]).
    assert (Hc : closes (parse_flags fs1) = true) by (unfold closes; now rewrite Hrst).
    destruct (next_table_reset c1 k t1 _ Hc Ho) as (v & L & E).
    assert (Hv : has_end v = true) by (unfold has_end; now rewrite E).
    assert (Lf : lookup k (apply_rows [] (pre ++ [ts1; a; b; p; q; fs1] :: rest)) = Some v).
    { rewrite apply_rows_app, apply_rows_cons. fold c1.
      rewrite (apply_row_six _ _ _ _ _ _ _ _ Hts). fold k.
      now apply apply_rows_closed. }
    destruct (t_start v) as [s|] eqn:S.
    + exists v, s. repeat split; try assumption.
      pose proof (export_In _ _ _ _ (lookup_In _ _ _ Lf) S) as Hin.
      now rewrite E in Hin.
    + exfalso. apply (Hst k v); [now apply lookup_In | assumption].
Qed.

(** ** C3 *)

Lemma handle_fields_reset_output (c : connections) (ts a b p q fs : string) (t : float) :
  PyFloat.float_of_string ts = Some t ->
  flag_in RST (parse_flags fs) = true ->
  open_or_absent (a, b, p, q) c ->
  snd (handle_fields c ts a b p q fs) =
  DbgFlags fs (parse_flags fs) ::
  (if contains (a, b, p, q) c then [] else [DbgStart (a, b, p, q) t]) ++
  [DbgRstEnd (a, b, p, q) t].
Proof.
  intros Hts Hrst Ho. unfold handle_fields, open_or_absent, contains in *.
  rewrite Hts, Hrst. set (k := (a, b, p, q)) in *. set (fl := parse_flags fs).
  destruct (lookup k c) as [v|] eqn:L; simpl negb; cbv iota.
  - rewrite (getitem_old _ _ _ L), Ho. simpl negb. cbv iota.
    rewrite (setitem_field_old _ _ _ _ L).
    destruct (flag_in FIN fl && flag_in ACK fl); [|reflexivity].
    rewrite (getitem_old _ _ _ (lookup_store_same _ _ (set_end t v) _ L)).
    reflexivity.
  - rewrite (setitem_field_new _ _ _ L).
    rewrite (getitem_old _ _ _ (lookup_app_new _ (set_start t empty_times) _ L)).
    simpl negb. cbv iota.
    rewrite (setitem_field_old _ _ _ _ (lookup_app_new _ (set_start t empty_times) _ L)).
    rewrite (store_app_new _ _ _ _ L).
    destruct (flag_in FIN fl && flag_in ACK fl); [|reflexivity].
    rewrite (getitem_old _ _ _ (lookup_app_new _ (set_end t (set_start t empty_times)) _ L)).
    reflexivity.
Qed.

(** C3. On an identity that is open (or not yet seen), one event whose
    flags hold RST, FIN and ACK sets the end to the event's timestamp
    through the RST branch: the "RST end" line is printed, no "FIN-ACK end"
    line is, and the cause read off the output is RESET. *)
Theorem C3_reset_wins_tie :
  forall (c : connections) (ts a b p q fs : string) (t : float),
    PyFloat.float_of_string ts = Some t ->
    flag_in RST (parse_flags fs) = true ->
    flag_in FIN (parse_flags fs) = true ->
    flag_in ACK (parse_flags fs) = true ->
    open_or_absent (a, b, p, q) c ->
    exists c' out,
      step_row c [ts; a; b; p; q; fs] = Return (c', out) /\
      (exists v, lookup (a, b, p, q) c' = Some v /\ t_end v = Some t) /\
      In (DbgRstEnd (a, b, p, q) t) out /\
      (forall k' t', ~ In (DbgFinAckEnd k' t') out) /\
      end_cause (a, b, p, q) out = RESET.
Proof.
  intros c ts a b p q fs t Hts Hrst Hfin Hack Ho.
  rewrite step_row_six. do 2 eexists. split; [reflexivity|].
  rewrite (handle_fields_table _ _ _ _ _ _ _ _ Hts).
  rewrite (handle_fields_reset_output _ _ _ _ _ _ _ _ Hts Hrst Ho).
  assert (Hc : closes (parse_flags fs) = true) by (unfold closes; now rewrite Hrst).
  split; [now apply next_table_reset|].
  generalize (a, b, p, q). intros k.
  destruct (contains k c); cbn [app In end_cause].
  - split; [auto|]. split.
    + intros k' t' [H | [H | [H | []]]]; discriminate.
    + now rewrite conn_id_eqb_refl.
  - split; [auto|]. split.
    + intros k' t' [H | [H | [H | [H | []]]]]; discriminate.
    + now rewrite conn_id_eqb_refl.
Qed.

(** ** C4 *)

(** An identity that is never closed keeps its end unset, and its
    exported duration is [(start + 100) - start], each operation rounded
    to binary64. *)
Lemma open_identity_export (rows : list (list string)) (c : connections)
    (k : conn_id) (v : times) :
  final_connections rows = Return c ->
  never_closed k rows ->
  lookup k c = Some v ->
  t_end v = None /\
  exists s, t_start v = Some s /\
    In (s, PyFloat.sub (PyFloat.add s (PyFloat.of_int 100)) s) (export c).
Proof.
  intros F Hn L.
  destruct (final_table_facts _ _ F) as ((Hnd & Hst) & _ & _).
  apply final_connections_inv in F. destruct F as [_ ->].
  pose proof (apply_rows_stays_open k rows [] Hn I) as Ho.
  unfold open_or_absent in Ho. rewrite L in Ho. unfold has_end in Ho.
  destruct (t_end v) as [e|] eqn:E; [discriminate|]. split; [reflexivity|].
  destruct (t_start v) as [s|] eqn:S.
  - exists s. split; [reflexivity|].
    pose proof (export_In _ _ _ _ (lookup_In _ _ _ L) S) as Hin.
    now rewrite E in Hin.
  - exfalso. apply (Hst k v); [now apply lookup_In | assumption].
Qed.

(** C4. The single record [28.2,10.0.0.1,10.0.0.2,40000,80,0x02] carries
    SYN only, so its identity is never closed and its end stays unset;
    the exported duration is [(28.2 + 100) - 28.2], which in binary64 is
    [100 - 2^-46] (99.99999999999999), not 100.0. *)
Theorem C4_default_duration_at_28_2 :
  parse_flags "0x02" = [SYN] /\
  final_connections [row_28_2] =
    Return [(("10.0.0.1", "10.0.0.2", "40000", "80")%string,
             mk_times (Some (S754_finite false 7937594343240499 (-48))) None)] /\
  process_tcp_fields [row_28_2] =
    Return [(S754_finite false 7937594343240499 (-48),
             S754_finite false 7036874417766399 (-46))] /\
  PyFloat.of_int 100 = S754_finite false 7036874417766400 (-46) /\
  SFeqb (S754_finite false 7036874417766399 (-46)) (PyFloat.of_int 100) = false.
Proof. repeat split; vm_compute; reflexivity. Qed.

(** ** C6 *)

(** The claim fails twice.  The timestamp [inf] is not a finite real
    number, yet [float] accepts it and the record creates an entry.  And a
    record of seven fields whose timestamp is [bad] raises [ValueError]. *)
Lemma C6_counterexample :
  (malformed_record ["inf"; "10.0.0.1"; "10.0.0.2"; "40000"; "80"; "0x02"]%string = true /\
   final_connections [["inf"; "10.0.0.1"; "10.0.0.2"; "40000"; "80"; "0x02"]%string] =
     Return [(("10.0.0.1", "10.0.0.2", "40000", "80")%string,
              mk_times (Some (S754_infinity false)) None)]) /\
  (malformed_record ["bad"; "10.0.0.1"; "10.0.0.2"; "40000"; "80"; "0x02"; "x"]%string = true /\
   process_tcp_fields [["bad"; "10.0.0.1"; "10.0.0.2"; "40000"; "80"; "0x02"; "x"]%string] =
     Raise ValueError).
Proof. repeat split; vm_compute; reflexivity. Qed.

(** C6 (amended). A record with fewer than six fields, or with exactly
    six fields and a timestamp that [float] refuses with [ValueError]
    (such as [bad]), leaves the table as it is and raises nothing; the
    loop goes on, so the run gives what it gives without that record. *)
Theorem C6_rejected_record_is_skipped :
  forall (row : list string),
    ((List.length row < 6)%nat \/
     (List.length row = 6%nat /\
      exists ts, hd_error row = Some ts /\ PyFloat.float_of_string ts = None)) ->
    (forall c, exists out, step_row c row = Return (c, out)) /\
    (forall pre rest,
        final_connections (pre ++ row :: rest) = final_connections (pre ++ rest) /\
        process_tcp_fields (pre ++ row :: rest) = process_tcp_fields (pre ++ rest)) /\
    PyFloat.float_of_string "bad" = None.
Proof.
  intros row H.
  assert (Hlen : too_long row = false).
  { unfold too_long. apply Nat.ltb_ge. destruct H as [H | [H _]]; lia. }
  assert (Hv : valid_record row = None).
  { destruct H as [H | [H6 (ts & Hhd & Hts)]]; [now apply valid_record_short|].
    do 6 (destruct row as [|? row]; [discriminate|]).
    simpl in Hhd. inversion Hhd; subst.
    unfold valid_record, record_fields. now rewrite Hts. }
  assert (Ha : forall c, apply_row c row = c).
  { intros c. unfold apply_row. now rewrite Hv. }
  split; [|split].
  - intros c. destruct (step_row_ok c row Hlen) as [out Hs].
    exists out. now rewrite Hs, Ha.
  - intros pre rest.
    assert (F : final_connections (pre ++ row :: rest) = final_connections (pre ++ rest)).
    { destruct (existsb too_long (pre ++ rest)) eqn:E.
      - rewrite (final_connections_raise _ E). apply final_connections_raise.
        rewrite existsb_app in *. simpl. now rewrite Hlen.
      - rewrite (final_connections_ok _ E). rewrite final_connections_ok.
        + f_equal. now rewrite !apply_rows_app, apply_rows_cons, Ha.
        + rewrite existsb_app in *. simpl. now rewrite Hlen. }
    split; [assumption|]. unfold process_tcp_fields. now rewrite F.
  - vm_compute. reflexivity.
Qed.

(** ** C10 *)

(** C10. [int(_, 0)] detects the base from the prefix: [0b10010] is read
    in base two as 18 and decodes to SYN and ACK (as do [0o22] and [0x12]),
    while [010], a decimal string with a leading zero, is refused and
    decodes to the empty set. *)
Theorem C10_base_is_detected_from_prefix :
  PyInt.int_base0 "0b10010" = Some 18 /\
  parse_flags "0b10010" = [SYN; ACK] /\
  PyInt.int_base0 "0o22" = Some 18 /\
  PyInt.int_base0 "0x12" = Some 18 /\
  PyInt.int_base0 "010" = None /\
  parse_flags "010" = [].
Proof. repeat split; vm_compute; reflexivity. Qed.

(** ** C5 *)

Section Literals.
Import Chars PyInt.

Ltac each_char c :=
  destruct c as [[|] [|] [|] [|] [|] [|] [|] [|]].

Lemma digit_is_plain (c : ascii) (d : Z) :
  digit_value c = Some d ->
  is_space c = false /\ Ascii.eqb c "_" = false /\
  Ascii.eqb c "+" = false /\ Ascii.eqb c "-" = false.
Proof.
  each_char c; vm_compute; intros H; try discriminate H; repeat split.
Qed.

Lemma dec_digit_no_prefix (c : ascii) (d : Z) :
  digit_value c = Some d -> (d <? 10) = true ->
  Ascii.eqb (to_lower c) "x" = false /\ Ascii.eqb (to_lower c) "o" = false /\
  Ascii.eqb (to_lower c) "b" = false.
Proof.
  each_char c; vm_compute; intros H; try discriminate H;
    inversion H; subst d; vm_compute; intros H'; try discriminate H'; repeat split.
Qed.

Lemma scan_digits_all (base : Z) (s : list ascii) : forall acc n v,
  digits_value base acc s = Some v ->
  scan_digits base acc n false s = Some (v, n + Z.of_nat (List.length s), []).
Proof.
  induction s as [|c r IH]; intros acc n v H; simpl in *.
  - inversion H. now rewrite Z.add_0_r.
  - destruct (digit_value c) as [d|] eqn:D; [|discriminate].
    destruct (digit_is_plain c d D) as (_ & -> & _ & _).
    destruct (d <? base); [|discriminate].
    rewrite (IH _ (n + 1) _ H). do 3 f_equal. lia.
Qed.

Lemma list_ascii_length (s : string) :
  List.length (list_ascii_of_string s) = String.length s.
Proof. induction s; simpl; congruence. Qed.

Lemma int_body_digits (neg : bool) (base : Z) (kind : prefix_kind)
    (c : ascii) (r : list ascii) (n : Z) :
  digits_value base 0 (c :: r) = Some n ->
  (base = 10 -> (List.length (c :: r) <= 4300)%nat) ->
  (kind = LeadingZero -> n = 0) ->
  int_body neg base kind (c :: r) = Some (if neg then - n else n).
Proof.
  intros H Hlen Hz. pose proof H as H0. cbn [digits_value] in H0.
  destruct (digit_value c) as [d|] eqn:D; [|discriminate].
  destruct (digit_is_plain c d D) as (_ & Hus & _ & _).
  unfold int_body.
  assert (Hs4 : match kind with
                | BasePrefix => if Ascii.eqb c "_" then r else c :: r
                | _ => c :: r
                end = c :: r) by (rewrite Hus; now destruct kind).
  rewrite Hs4, Hus, (scan_digits_all base (c :: r) 0 0 n H).
  assert (Hbig : (base =? 10) && (int_max_str_digits <? 0 + Z.of_nat (List.length (c :: r))) = false).
  { destruct (Z.eqb_spec base 10) as [E|E]; [|reflexivity].
    specialize (Hlen E). apply Z.ltb_ge. unfold int_max_str_digits. lia. }
  assert (Hpos : (0 + Z.of_nat (List.length (c :: r)) =? 0) = false).
  { apply Z.eqb_neq. simpl List.length. lia. }
  rewrite Hbig, Hpos.
  destruct kind; try reflexivity.
  rewrite (Hz eq_refl). reflexivity.
Qed.

Lemma int_of_decimal (s : string) (n : Z) :
  decimal_string s = Some n ->
  (String.length s <= 4300)%nat ->
  leading_zero s = false \/ n = 0 ->
  int_base0 s = Some n.
Proof.
  unfold decimal_string, int_base0. rewrite <- list_ascii_length.
  destruct s as [|c s]; [discriminate|]. cbn [list_ascii_of_string leading_zero].
  set (r := list_ascii_of_string s). intros H Hlen Hz.
  pose proof H as H0. cbn [digits_value] in H0.
  destruct (digit_value c) as [d|] eqn:D; [|discriminate].
  destruct (d <? 10) eqn:Hd; [|discriminate].
  destruct (digit_is_plain c d D) as (Hsp & Hus & Hpl & Hmi).
  unfold int_of_chars. cbn [skip_spaces]. rewrite Hsp, Hpl, Hmi.
  unfold detect_base.
  destruct (Ascii.eqb c "0") eqn:E0.
  - destruct Hz as [Hz | Hz]; [discriminate|].
    destruct r as [|c1 r1] eqn:Er.
    + now apply (int_body_digits false 10 LeadingZero c [] n).
    + cbn [digits_value] in H0.
      destruct (digit_value c1) as [d1|] eqn:D1; [|discriminate].
      destruct (d1 <? 10) eqn:Hd1; [|discriminate].
      destruct (dec_digit_no_prefix c1 d1 D1 Hd1) as (-> & -> & ->).
      now apply (int_body_digits false 10 LeadingZero c (c1 :: r1) n).
  - apply (int_body_digits false 10 NoPrefix c r n); [assumption | auto | discriminate].
Qed.

Lemma int_of_hex (s : string) (n : Z) :
  hex_string s = Some n -> int_base0 s = Some n.
Proof.
  unfold hex_string, int_base0.
  destruct (list_ascii_of_string s) as [|c0 [|c1 [|c r]]]; try discriminate.
  destruct (Ascii.eqb_spec c0 "0"); [subst c0 | discriminate].
  destruct (Ascii.eqb_spec c1 "x"); [subst c1 | discriminate].
  cbn [andb]. intros H.
  change (int_of_chars ("0"%char :: "x"%char :: c :: r))
    with (int_body false 16 BasePrefix (c :: r)).
  apply (int_body_digits false 16 BasePrefix c r n); [assumption | discriminate | discriminate].
Qed.

End Literals.

Lemma parse_flags_bits (s : string) (n : Z) :
  PyInt.int_base0 s = Some n ->
  (forall f, flag_in f (parse_flags s) = bit_set n (flag_mask f)) /\
  NoDup (parse_flags s).
Proof.
  intros H. unfold parse_flags. rewrite H.
  assert (M : forall f, bit_set n (flag_mask f) =
                        match f with
                        | SYN => bit_set n 0x02 | ACK => bit_set n 0x10
                        | FIN => bit_set n 0x01 | RST => bit_set n 0x04
                        end) by (intros []; reflexivity).
  destruct (bit_set n 0x02) eqn:B1, (bit_set n 0x10) eqn:B2,
           (bit_set n 0x01) eqn:B3, (bit_set n 0x04) eqn:B4;
    (split; [intros f; rewrite M; destruct f; simpl; congruence
            | repeat constructor; simpl; intuition discriminate]).
Qed.

(** The claim fails at [010]: it is a decimal string and encodes 10, whose
    bit 0x02 is set, yet the decoder returns the empty set. *)
Lemma C5_counterexample :
  decimal_string "010" = Some 10 /\
  bit_set 10 (flag_mask SYN) = true /\
  flag_in SYN (parse_flags "010") = false /\
  parse_flags "010" = [].
Proof. repeat split; vm_compute; reflexivity. Qed.

(** C5 (amended). [parse_flags] is a function of its argument alone,
    defined on every string.  On a decimal string of at most 4300 digits
    that has no leading zero or whose value is zero, and on a
    [0x]-prefixed hexadecimal string, encoding [n], integer conversion
    yields [n]; whenever integer conversion yields [n], the result holds
    exactly the flags whose bit is set in [n] (SYN 0x02, ACK 0x10, FIN
    0x01, RST 0x04), each once; whenever it fails, the result is empty.
    [0x12] gives SYN and ACK, [abc] gives the empty set. *)
Theorem C5_flag_decoder :
  (forall (s : string) (n : Z),
      (decimal_string s = Some n /\ (String.length s <= 4300)%nat /\
       (leading_zero s = false \/ n = 0)) \/
      hex_string s = Some n ->
      PyInt.int_base0 s = Some n /\
      (forall f, flag_in f (parse_flags s) = bit_set n (flag_mask f)) /\
      NoDup (parse_flags s)) /\
  (forall (s : string) (n : Z),
      PyInt.int_base0 s = Some n ->
      forall f, flag_in f (parse_flags s) = bit_set n (flag_mask f)) /\
  (forall s : string, PyInt.int_base0 s = None -> parse_flags s = []) /\
  parse_flags "0x12" = [SYN; ACK] /\
  parse_flags "abc" = [].
Proof.
  split; [|split; [|split; [|split]]].
  - intros s n H.
    assert (Hi : PyInt.int_base0 s = Some n).
    { destruct H as [(Hd & Hlen & Hz) | Hh];
        [now apply int_of_decimal | now apply int_of_hex]. }
    split; [assumption|]. now apply parse_flags_bits.
  - intros s n H. now apply parse_flags_bits.
  - intros s H. unfold parse_flags. now rewrite H.
  - vm_compute. reflexivity.
  - vm_compute. reflexivity.
Qed.

(** * Runs on concrete inputs *)

Lemma example_run :
  final_connections example_rows = Return example_table /\
  process_tcp_fields example_rows = Return example_out /\
  example_out = [(t5, float_lit "2.0"); (t6, float_lit "100.0")].
Proof. repeat split; vm_compute; reflexivity. Qed.

(** The three scenarios of a graceful close, a reset and a connection left
    open. *)
Example scenario_graceful :
  process_tcp_fields
    [mk_row "10.0" k1 "0x02"; mk_row "10.0" k1 "0x12"; mk_row "12.5" k1 "0x11"] =
  Return [(float_lit "10.0", float_lit "2.5")].
Proof. vm_compute. reflexivity. Qed.

Example scenario_reset :
  process_tcp_fields [mk_row "5.0" k1 "0x02"; mk_row "7.0" k1 "0x04"] =
  Return [(float_lit "5.0", float_lit "2.0")].
Proof. vm_compute. reflexivity. Qed.

Example scenario_open :
  process_tcp_fields [mk_row "3.0" k1 "0x02"] =
  Return [(float_lit "3.0", float_lit "100.0")].
Proof. vm_compute. reflexivity. Qed.

Lemma C1_witness :
  process_tcp_fields example_rows = Return example_out /\
  exists c,
    final_connections example_rows = Return c /\
    Forall2 (fun kv iv =>
               first_valid_time example_rows (fst kv) = Some (fst iv) /\
               t_start (snd kv) = Some (fst iv)) c example_out.
Proof.
  assert (H : process_tcp_fields example_rows = Return example_out)
    by (vm_compute; reflexivity).
  split; [exact H|].
  destruct (C1_start_is_first_valid_timestamp example_rows example_out H)
    as (c & F & HF & _).
  exists c. split; assumption.
Defined.

Lemma C2_witness :
  (process_rows example_table [mk_row "9.0" k1 "0x11"; mk_row "10.0" k1 "0x02"]%string
     = Return (example_table,
               [DbgRow (mk_row "9.0" k1 "0x11"); DbgFlags "0x11" [ACK; FIN];
                DbgRow (mk_row "10.0" k1 "0x02"); DbgFlags "0x02" [SYN]]%string) /\
   lookup k1 example_table = Some (mk_times (Some t5) (Some t7))) /\
  (exists v s,
     lookup k1 [(k1, mk_times (Some t5) (Some t7))] = Some v /\ t_start v = Some s /\
     t_end v = Some t7 /\
     In (s, PyFloat.sub t7 s) (export [(k1, mk_times (Some t5) (Some t7))])).
Proof.
  destruct C2_first_close_wins as [Hkeep Hrst].
  assert (P : process_rows example_table
                [mk_row "9.0" k1 "0x11"; mk_row "10.0" k1 "0x02"]%string
              = Return (example_table,
                        [DbgRow (mk_row "9.0" k1 "0x11"); DbgFlags "0x11" [ACK; FIN];
                         DbgRow (mk_row "10.0" k1 "0x02"); DbgFlags "0x02" [SYN]]%string))
    by (vm_compute; reflexivity).
  split.
  - split; [exact P|].
    apply (Hkeep example_table example_table _ _ k1 _ P); vm_compute; reflexivity.
  - apply (Hrst [mk_row "5.0" k1 "0x02"]%string
                [mk_row "9.0" k1 "0x11"; mk_row "10.0" k1 "0x02"]%string
                "7.0"%string "10.0.0.1"%string "10.0.0.2"%string "40000"%string
                "80"%string "0x04"%string t7 [(k1, mk_times (Some t5) (Some t7))]).
    + vm_compute; reflexivity.
    + vm_compute; reflexivity.
    + intros row t flags [<- | []] H. vm_compute in H. inversion H. reflexivity.
    + vm_compute; reflexivity.
Defined.

Lemma C3_witness :
  PyFloat.float_of_string "7.0" = Some t7 /\
  parse_flags "0x15" = [ACK; FIN; RST] /\
  exists c' out,
    step_row [(k1, mk_times (Some t5) None)] (mk_row "7.0" k1 "0x15") = Return (c', out) /\
    (exists v, lookup k1 c' = Some v /\ t_end v = Some t7) /\
    In (DbgRstEnd k1 t7) out /\
    (forall k' t', ~ In (DbgFinAckEnd k' t') out) /\
    end_cause k1 out = RESET.
Proof.
  split; [vm_compute; reflexivity|]. split; [vm_compute; reflexivity|].
  apply (C3_reset_wins_tie [(k1, mk_times (Some t5) None)]
           "7.0"%string "10.0.0.1"%string "10.0.0.2"%string "40000"%string
           "80"%string "0x15"%string t7); vm_compute; reflexivity.
Defined.

Lemma C5_witness :
  (decimal_string "18" = Some 18 /\
   PyInt.int_base0 "18" = Some 18 /\ parse_flags "18" = [SYN; ACK]) /\
  (hex_string "0x15" = Some 21 /\
   PyInt.int_base0 "0x15" = Some 21 /\
   forall f, flag_in f (parse_flags "0x15") = bit_set 21 (flag_mask f)) /\
  (decimal_string "000" = Some 0 /\ PyInt.int_base0 "000" = Some 0).
Proof.
  destruct C5_flag_decoder as (Hlit & _ & _ & _ & _).
  split; [|split].
  - split; [vm_compute; reflexivity|].
    destruct (Hlit "18"%string 18) as (Hi & _ & _).
    + left. split; [vm_compute; reflexivity|]. split; [vm_compute; lia|].
      left. vm_compute; reflexivity.
    + split; [exact Hi | vm_compute; reflexivity].
  - split; [vm_compute; reflexivity|].
    destruct (Hlit "0x15"%string 21) as (Hi & Hf & _).
    + right. vm_compute; reflexivity.
    + split; assumption.
  - split; [vm_compute; reflexivity|].
    destruct (Hlit "000"%string 0) as (Hi & _ & _).
    + left. split; [vm_compute; reflexivity|]. split; [vm_compute; lia|].
      right. reflexivity.
    + exact Hi.
Defined.

Lemma C6_witness :
  (forall c, exists out,
      step_row c ["1.0"; "10.0.0.1"; "10.0.0.2"]%string = Return (c, out)) /\
  (forall c, exists out, step_row c (mk_row "bad" k2 "0x02") = Return (c, out)) /\
  process_tcp_fields
    ([mk_row "5.0" k1 "0x02"] ++ mk_row "bad" k2 "0x02" :: [mk_row "7.0" k1 "0x04"]) =
  process_tcp_fields ([mk_row "5.0" k1 "0x02"] ++ [mk_row "7.0" k1 "0x04"]).
Proof.
  split; [|split].
  - apply (C6_rejected_record_is_skipped ["1.0"; "10.0.0.1"; "10.0.0.2"]%string).
    left. simpl. lia.
  - apply (C6_rejected_record_is_skipped (mk_row "bad" k2 "0x02")).
    right. split; [reflexivity|]. exists "bad"%string.
    split; [reflexivity | vm_compute; reflexivity].
  - apply (C6_rejected_record_is_skipped (mk_row "bad" k2 "0x02")).
    right. split; [reflexivity|]. exists "bad"%string.
    split; [reflexivity | vm_compute; reflexivity].
Defined.

Lemma C8_witness :
  process_tcp_fields example_rows = Return example_out /\
  exists c,
    final_connections example_rows = Return c /\
    NoDup (map fst c) /\
    List.length example_out = List.length c /\
    Forall2 (fun kv iv =>
               t_start (snd kv) = Some (fst iv) /\
               forall e, t_end (snd kv) = Some e ->
                         snd iv = PyFloat.sub e (fst iv)) c example_out.
Proof.
  assert (H : process_tcp_fields example_rows = Return example_out)
    by (vm_compute; reflexivity).
  split; [exact H|].
  destruct (C8_one_interval_per_identity example_rows example_out H)
    as (c & F & Hnd & _ & Hlen & HF).
  exists c. repeat split; assumption.
Defined.

Lemma C9_witness :
  process_tcp_fields
    [mk_row "5.0" k1 "0x02";
     ["6.0"; "10.0.0.3"; "10.0.0.2"; "40001"; "443"; "0x02"; "extra"]%string] =
  Raise ValueError.
Proof.
  apply C9_extra_field_aborts.
  exists ["6.0"; "10.0.0.3"; "10.0.0.2"; "40001"; "443"; "0x02"; "extra"]%string.
  split; [right; left; reflexivity | simpl; lia].
Defined.

(** * Further properties of [process_tcp_fields] *)

(** ** The whole record of an identity *)

Lemma next_table_stays_open (c : connections) (k k0 : conn_id) (t : float)
    (flags : list flag) :
  (k = k0 -> closes flags = false) ->
  open_or_absent k c -> open_or_absent k (next_table c k0 t flags).
Proof.
  intros Hc Ho. unfold open_or_absent in *.
  destruct (conn_id_eqb k k0) eqn:E.
  - apply conn_id_eqb_eq in E. subst k0. specialize (Hc eq_refl).
    destruct (lookup k c) as [v|] eqn:L.
    + rewrite (next_table_old _ _ t flags _ L), Hc. assumption.
    + rewrite (next_table_new _ _ t flags L), Hc. reflexivity.
  - apply conn_id_eqb_neq in E. now rewrite next_table_other.
Qed.

Lemma apply_rows_end (rows : list (list string)) : forall c k v,
  open_or_absent k c ->
  lookup k (apply_rows c rows) = Some v ->
  t_end v = option_map fst (first_closing rows k).
Proof.
  induction rows as [|row rest IH]; intros c k v Ho L.
  - simpl in *. unfold open_or_absent in Ho. rewrite L in Ho.
    unfold has_end in Ho. now destruct (t_end v).
  - rewrite apply_rows_cons in L. cbn [first_closing].
    unfold apply_row in L.
    destruct (valid_record row) as [[[k0 t0] fl0]|]; [|now apply (IH c)].
    destruct (conn_id_eqb k k0) eqn:E; cbn [andb].
    + apply conn_id_eqb_eq in E. subst k0.
      destruct (closes fl0) eqn:Hc.
      * destruct (next_table_reset c k t0 fl0 Hc Ho) as (v1 & L1 & E1).
        assert (Hv : has_end v1 = true) by (unfold has_end; now rewrite E1).
        rewrite (apply_rows_closed rest _ _ _ L1 Hv) in L.
        inversion L; subst v1. exact E1.
      * apply (IH (next_table c k t0 fl0)); [|assumption].
        apply next_table_stays_open; auto.
    + apply (IH (next_table c k0 t0 fl0)); [|assumption].
      apply next_table_stays_open; [|assumption].
      intros ->. rewrite conn_id_eqb_refl in E. discriminate.
Qed.

(** X1. The final table, seen through [lookup], is a function of the
    record sequence: an identity is present exactly when it has a valid
    record; its start is the timestamp of its first valid record and its
    end the timestamp of its first valid record with closing flags (RST,
    or FIN with ACK), unset when there is none. *)
Theorem final_record_characterised :
  forall (rows : list (list string)) (c : connections) (k : conn_id),
    final_connections rows = Return c ->
    lookup k c =
    match first_valid_time rows k with
    | Some s => Some (mk_times (Some s) (option_map fst (first_closing rows k)))
    | None => None
    end.
Proof.
  intros rows c k F. apply final_connections_inv in F. destruct F as [_ ->].
  pose proof (apply_rows_start_new rows [] k eq_refl) as Hs.
  destruct (first_valid_time rows k) as [s|]; [|assumption].
  destruct Hs as (v & L & S).
  pose proof (apply_rows_end rows [] k v I L) as E.
  rewrite L. destruct v as [vs ve]. simpl in *. now subst.
Qed.

Lemma final_record_characterised_witness :
  final_connections example_rows = Return example_table /\
  lookup k1 example_table =
  match first_valid_time example_rows k1 with
  | Some s => Some (mk_times (Some s) (option_map fst (first_closing example_rows k1)))
  | None => None
  end.
Proof.
  assert (F : final_connections example_rows = Return example_table)
    by (vm_compute; reflexivity).
  split; [exact F|].
  exact (final_record_characterised example_rows example_table k1 F).
Defined.

(** ** Identities do not interact *)

Lemma first_closing_only (k : conn_id) (rows : list (list string)) :
  first_closing rows k = first_closing (only_identity k rows) k.
Proof.
  induction rows as [|row rest IH]; simpl; [reflexivity|].
  destruct (valid_record row) as [[[k0 t0] fl0]|] eqn:V; [|assumption].
  destruct (conn_id_eqb k k0) eqn:E; simpl; [|assumption].
  rewrite V, E. simpl. now rewrite IH.
Qed.

Lemma too_long_filter (f : list string -> bool) (rows : list (list string)) :
  existsb too_long rows = false -> existsb too_long (filter f rows) = false.
Proof.
  induction rows as [|row rest IH]; simpl; [reflexivity|].
  intros H. apply orb_false_iff in H. destruct H as [H1 H2].
  destruct (f row); simpl; [rewrite H1|]; auto.
Qed.

Lemma too_long_only (k : conn_id) (rows : list (list string)) :
  existsb too_long rows = false -> existsb too_long (only_identity k rows) = false.
Proof. unfold only_identity. apply too_long_filter. Qed.

(** X2. The record of an identity depends only on the records of that
    identity: it is what processing those records alone gives, and two
    inputs that hold the same records for [k], in the same order, however
    interleaved with records of other identities or with malformed ones,
    end with the same record for [k]. *)
Theorem identities_do_not_interact :
  forall (rows : list (list string)) (c : connections) (k : conn_id),
    final_connections rows = Return c ->
    (exists c0, final_connections (only_identity k rows) = Return c0 /\
                lookup k c0 = lookup k c) /\
    (forall rows' c',
        final_connections rows' = Return c' ->
        only_identity k rows' = only_identity k rows ->
        lookup k c' = lookup k c).
Proof.
  intros rows c k F.
  assert (Hown : forall r cr, final_connections r = Return cr ->
            exists c0, final_connections (only_identity k r) = Return c0 /\
                       lookup k c0 = lookup k cr).
  { intros r cr Fr. pose proof (final_record_characterised r cr k Fr) as Hr.
    apply final_connections_inv in Fr. destruct Fr as [Hl _].
    pose proof (final_connections_ok _ (too_long_only k _ Hl)) as F0.
    eexists. split; [exact F0|].
    rewrite (final_record_characterised _ _ k F0), Hr.
    now rewrite <- first_valid_time_only, <- first_closing_only. }
  split; [now apply Hown|].
  intros rows' c' F' Heq.
  destruct (Hown rows c F) as (c0 & F0 & L0).
  destruct (Hown rows' c' F') as (c0' & F0' & L0').
  rewrite Heq in F0'. congruence.
Qed.

Lemma identities_do_not_interact_witness :
  final_connections example_rows = Return example_table /\
  (exists c0, final_connections (only_identity k2 example_rows) = Return c0 /\
              lookup k2 c0 = lookup k2 example_table) /\
  lookup k2 [(k2, mk_times (Some t6) None);
             (k1, mk_times (Some (float_lit "1.0")) (Some (float_lit "1.0")))] =
  lookup k2 example_table.
Proof.
  assert (F : final_connections example_rows = Return example_table)
    by (vm_compute; reflexivity).
  destruct (identities_do_not_interact example_rows example_table k2 F) as [H1 H2].
  split; [exact F|]. split; [exact H1|].
  apply (H2 [mk_row "6.0" k2 "0x02"; mk_row "1.0" k1 "0x04"; mk_row "8.0" k2 "0x10"]);
    vm_compute; reflexivity.
Defined.

(** ** The order of the export *)

Lemma contains_existsb (k : conn_id) (c : connections) :
  contains k c = existsb (conn_id_eqb k) (map fst c).
Proof.
  unfold contains. induction c as [|[k' v'] c IH]; simpl; [reflexivity|].
  destruct (conn_id_eqb k k'); [reflexivity | exact IH].
Qed.

Lemma keys_apply_row (c : connections) (row : list string) :
  map fst (apply_row c row) = see (map fst c) row.
Proof.
  unfold apply_row, see. destruct (valid_record row) as [[[k t] fl]|]; [|reflexivity].
  now rewrite next_table_keys, contains_existsb.
Qed.

Lemma keys_apply_rows (rows : list (list string)) : forall c,
  map fst (apply_rows c rows) = fold_left see rows (map fst c).
Proof.
  induction rows as [|row rest IH]; intros c; simpl; [reflexivity|].
  now rewrite IH, keys_apply_row.
Qed.

Lemma starts_store (k : conn_id) (v v' : times) (c : connections) :
  lookup k c = Some v -> t_start v' = t_start v -> starts (store k v' c) = starts c.
Proof.
  unfold starts. induction c as [|[k0 v0] c IH]; simpl; [reflexivity|].
  destruct (conn_id_eqb k k0); simpl.
  - intros [= ->] ->. reflexivity.
  - intros L S. now rewrite IH.
Qed.

Lemma starts_next_table (c : connections) (k : conn_id) (t : float) (flags : list flag) :
  starts (next_table c k t flags) =
  starts c ++ (if contains k c then [] else [Some t]).
Proof.
  unfold next_table, contains. destruct (lookup k c) as [v|] eqn:L.
  - rewrite app_nil_r. destruct (closes flags && negb (has_end v)); [|reflexivity].
    now apply starts_store with (v := v).
  - unfold starts. now rewrite map_app.
Qed.

Lemma starts_apply_rows (rows : list (list string)) : forall c,
  exists l, starts (apply_rows c rows) = starts c ++ l.
Proof.
  induction rows as [|row rest IH]; intros c; simpl.
  - exists []. now rewrite app_nil_r.
  - destruct (IH (apply_row c row)) as [l Hl]. rewrite Hl.
    unfold apply_row. destruct (valid_record row) as [[[k t] fl]|]; [|eauto].
    rewrite starts_next_table, <- app_assoc. eauto.
Qed.

Lemma export_starts (c : connections) :
  (forall k v, In (k, v) c -> t_start v <> None) ->
  map Some (map fst (export c)) = starts c.
Proof.
  unfold starts. induction c as [|[k v] c IH]; intros H; simpl; [reflexivity|].
  destruct (t_start v) as [s|] eqn:S.
  - simpl. f_equal. apply IH. intros k0 v0 Hin. apply (H k0 v0). now right.
  - exfalso. apply (H k v); [now left | assumption].
Qed.

Lemma map_Some_app_inv {A : Type} (l2 : list A) : forall (l1 : list A) (l : list (option A)),
  map Some l1 = map Some l2 ++ l -> exists l', l1 = l2 ++ l'.
Proof.
  induction l2 as [|x l2 IH]; intros l1 l H; simpl in *.
  - eauto.
  - destruct l1 as [|y l1]; [discriminate|]. simpl in H. inversion H; subst.
    destruct (IH _ _ H2) as [l' ->]. eauto.
Qed.

(** X3. The exported pairs carry no identity; their order is the order in
    which the identities first appear among the valid records: the i-th
    pair starts at the first timestamp of the i-th identity. *)
Theorem export_follows_first_appearance :
  forall (rows : list (list string)) (out : list (float * float)),
    process_tcp_fields rows = Return out ->
    map Some (map fst out) = map (first_valid_time rows) (identities rows) /\
    List.length out = List.length (identities rows).
Proof.
  intros rows out H. unfold process_tcp_fields in H.
  destruct (final_connections rows) as [c|e] eqn:F; simpl in H; [|discriminate].
  inversion H; subst out; clear H.
  destruct (final_table_facts _ _ F) as ((Hnd & Hst) & Hfirst & _).
  assert (Hk : map fst c = identities rows).
  { apply final_connections_inv in F. destruct F as [_ ->].
    apply (keys_apply_rows rows []). }
  assert (Hm : map Some (map fst (export c)) = map (first_valid_time rows) (map fst c)).
  { rewrite (export_starts c Hst). unfold starts. rewrite map_map.
    apply map_ext_in. intros [k v] Hin. simpl.
    destruct (Hfirst k v Hin) as (_ & s & -> & ->). reflexivity. }
  split.
  - now rewrite Hm, Hk.
  - rewrite <- Hk. apply (f_equal (@List.length _)) in Hm.
    rewrite !length_map in Hm. now rewrite length_map.
Qed.

Lemma export_follows_first_appearance_witness :
  process_tcp_fields example_rows = Return example_out /\
  identities example_rows = [k1; k2] /\
  map Some (map fst example_out) =
    map (first_valid_time example_rows) (identities example_rows).
Proof.
  assert (H : process_tcp_fields example_rows = Return example_out)
    by (vm_compute; reflexivity).
  split; [exact H|]. split; [vm_compute; reflexivity|].
  exact (proj1 (export_follows_first_appearance example_rows example_out H)).
Defined.

(** X4. Reading further records never reorders, removes or restarts what
    was exported for the records read so far: the starts exported for a
    prefix of the input are, in order, the first starts exported for the
    whole input (only durations may still change). *)
Theorem export_of_prefix_is_kept :
  forall (pre post : list (list string)) (out_pre out : list (float * float)),
    process_tcp_fields pre = Return out_pre ->
    process_tcp_fields (pre ++ post) = Return out ->
    exists more, map fst out = map fst out_pre ++ more.
Proof.
  intros pre post out_pre out Hp H. unfold process_tcp_fields in *.
  destruct (final_connections pre) as [cp|e] eqn:Fp; simpl in Hp; [|discriminate].
  destruct (final_connections (pre ++ post)) as [c|e] eqn:F; simpl in H; [|discriminate].
  inversion Hp; subst out_pre; clear Hp. inversion H; subst out; clear H.
  destruct (final_table_facts _ _ Fp) as ((_ & Hstp) & _ & _).
  destruct (final_table_facts _ _ F) as ((_ & Hst) & _ & _).
  apply final_connections_inv in Fp. destruct Fp as [_ ->].
  apply final_connections_inv in F. destruct F as [_ ->].
  rewrite apply_rows_app in *.
  destruct (starts_apply_rows post (apply_rows [] pre)) as [l Hl].
  rewrite <- (export_starts _ Hst), <- (export_starts _ Hstp) in Hl.
  exact (map_Some_app_inv _ _ _ Hl).
Qed.

Lemma export_of_prefix_is_kept_witness :
  process_tcp_fields (firstn 3 example_rows) = Return [(t5, float_lit "100.0")] /\
  process_tcp_fields (firstn 3 example_rows ++ skipn 3 example_rows) = Return example_out /\
  exists more, map fst example_out = map fst [(t5, float_lit "100.0")] ++ more.
Proof.
  assert (Hp : process_tcp_fields (firstn 3 example_rows) = Return [(t5, float_lit "100.0")])
    by (vm_compute; reflexivity).
  assert (H : process_tcp_fields (firstn 3 example_rows ++ skipn 3 example_rows)
              = Return example_out) by (vm_compute; reflexivity).
  split; [exact Hp|]. split; [exact H|].
  exact (export_of_prefix_is_kept _ _ _ _ Hp H).
Defined.

(** ** When the function returns *)

(** X5. [process_tcp_fields] returns normally exactly when no record has
    more than six fields: no content of the fields (times that are not
    numbers, flags that are not integers, empty fields, empty rows) makes
    it raise. *)
Theorem returns_unless_extra_field :
  forall rows : list (list string),
    (exists out, process_tcp_fields rows = Return out) <->
    (forall row, In row rows -> (List.length row <= 6)%nat).
Proof.
  intros rows. split.
  - intros [out H] row Hin.
    destruct (Nat.le_gt_cases (List.length row) 6) as [Hle | Hgt]; [assumption|].
    assert (E : existsb too_long rows = true).
    { apply existsb_exists. exists row. split; [assumption|].
      unfold too_long. now apply Nat.ltb_lt. }
    unfold process_tcp_fields in H.
    rewrite (final_connections_raise _ E) in H. discriminate.
  - intros H. destruct (existsb too_long rows) eqn:E.
    + apply existsb_exists in E. destruct E as (row & Hin & Hl).
      unfold too_long in Hl. apply Nat.ltb_lt in Hl. specialize (H row Hin). lia.
    + eexists. now apply process_tcp_fields_returns.
Qed.

Lemma returns_unless_extra_field_witness :
  exists out,
    process_tcp_fields [[]; ["x"]%string; mk_row "bad" k1 ""; mk_row "1.0" k1 "?"] =
    Return out.
Proof.
  apply (proj2 (returns_unless_extra_field
                  [[]; ["x"]%string; mk_row "bad" k1 ""; mk_row "1.0" k1 "?"])).
  intros row [<- | [<- | [<- | [<- | []]]]]; simpl; lia.
Defined.

(** ** A connection closed at its start *)

Lemma sub_self (t : float) :
  PyFloat.is_finite t = true -> PyFloat.sub t t = S754_zero false.
Proof.
  destruct t as [s | s | | s m e]; simpl; try discriminate; intros _.
  - now destruct s.
  - unfold PyFloat.sub, SFsub. now rewrite Z.sub_diag.
Qed.

(** X6. An identity whose end timestamp is its start timestamp, as when
    its first valid record already carries RST or FIN with ACK, is exported
    with duration exactly +0.0, provided the timestamp is finite. *)
Theorem closed_at_start_has_zero_duration :
  forall (rows : list (list string)) (out : list (float * float))
         (k : conn_id) (t : float),
    process_tcp_fields rows = Return out ->
    first_valid_time rows k = Some t ->
    option_map fst (first_closing rows k) = Some t ->
    PyFloat.is_finite t = true ->
    In (t, S754_zero false) out.
Proof.
  intros rows out k t H Hs He Hf. unfold process_tcp_fields in H.
  destruct (final_connections rows) as [c|e] eqn:F; simpl in H; [|discriminate].
  inversion H; subst out; clear H.
  pose proof (final_record_characterised rows c k F) as L.
  rewrite Hs, He in L.
  pose proof (export_In c k _ t (lookup_In _ _ _ L) eq_refl) as Hin.
  simpl in Hin. now rewrite (sub_self t Hf) in Hin.
Qed.

Lemma closed_at_start_has_zero_duration_witness :
  process_tcp_fields [mk_row "5.0" k1 "0x02"; mk_row "7.0" k2 "0x14"] =
    Return [(t5, float_lit "100.0"); (t7, float_lit "0.0")] /\
  In (t7, S754_zero false) [(t5, float_lit "100.0"); (t7, float_lit "0.0")].
Proof.
  assert (H : process_tcp_fields [mk_row "5.0" k1 "0x02"; mk_row "7.0" k2 "0x14"] =
              Return [(t5, float_lit "100.0"); (t7, float_lit "0.0")])
    by (vm_compute; reflexivity).
  split; [exact H|].
  apply (closed_at_start_has_zero_duration _ _ k2 t7 H); vm_compute; reflexivity.
Defined.

(** ** Which bits of the flags field matter *)

Section FlagBits.

Lemma bit_set_masked (n m : Z) :
  Z.land flag_bits m = m -> bit_set n m = bit_set (Z.land n flag_bits) m.
Proof.
  intros H. unfold bit_set. now rewrite <- Z.land_assoc, H.
Qed.

Lemma land_single_bit (n i : Z) :
  0 <= i -> Z.land n (2 ^ i) = if Z.testbit n i then 2 ^ i else 0.
Proof.
  intros Hi. apply Z.bits_inj'. intros j Hj.
  rewrite Z.land_spec, Z.pow2_bits_eqb by assumption.
  destruct (Z.eqb_spec i j) as [<- | Hne].
  - destruct (Z.testbit n i); simpl.
    + now rewrite Z.pow2_bits_eqb, Z.eqb_refl.
    + now rewrite Z.bits_0.
  - rewrite andb_false_r. destruct (Z.testbit n i).
    + rewrite Z.pow2_bits_eqb by assumption.
      symmetry. now apply Z.eqb_neq.
    + now rewrite Z.bits_0.
Qed.

Lemma bit_set_testbit (n i : Z) :
  0 <= i -> bit_set n (2 ^ i) = Z.testbit n i.
Proof.
  intros Hi. unfold bit_set. rewrite (land_single_bit n i Hi).
  destruct (Z.testbit n i); [|reflexivity].
  assert (0 < 2 ^ i) by (apply Z.pow_pos_nonneg; lia).
  destruct (Z.eqb_spec (2 ^ i) 0); [lia | reflexivity].
Qed.

Lemma land_flag_bits (n : Z) :
  Z.land n flag_bits =
  Z.lor (Z.land n 0x01) (Z.lor (Z.land n 0x02) (Z.lor (Z.land n 0x04) (Z.land n 0x10))).
Proof.
  change flag_bits with (Z.lor 0x01 (Z.lor 0x02 (Z.lor 0x04 0x10))).
  now rewrite !Z.land_lor_distr_r.
Qed.

Lemma same_bits_same_land (n n' : Z) :
  bit_set n 0x02 = bit_set n' 0x02 -> bit_set n 0x10 = bit_set n' 0x10 ->
  bit_set n 0x01 = bit_set n' 0x01 -> bit_set n 0x04 = bit_set n' 0x04 ->
  Z.land n flag_bits = Z.land n' flag_bits.
Proof.
  change 0x02 with (2 ^ 1). change 0x10 with (2 ^ 4).
  change 0x01 with (2 ^ 0). change 0x04 with (2 ^ 2).
  rewrite !bit_set_testbit by lia. intros H1 H4 H0 H2.
  rewrite !land_flag_bits.
  change 0x02 with (2 ^ 1). change 0x10 with (2 ^ 4).
  change 0x01 with (2 ^ 0). change 0x04 with (2 ^ 2).
  rewrite !land_single_bit by lia. now rewrite H0, H1, H2, H4.
Qed.

End FlagBits.

(** X7. Of the integer in the flags field only the bits 0x01, 0x02, 0x04
    and 0x10 count: two fields that both convert to integers decode to the
    same set exactly when these integers agree on the mask 0x17.  Any other
    bit (PSH 0x08, URG 0x20, ...), and the sign, is ignored. *)
Theorem only_four_bits_matter :
  forall (s s' : string) (n n' : Z),
    PyInt.int_base0 s = Some n ->
    PyInt.int_base0 s' = Some n' ->
    (parse_flags s = parse_flags s' <-> Z.land n flag_bits = Z.land n' flag_bits).
Proof.
  intros s s' n n' H H'. unfold parse_flags. rewrite H, H'. split.
  - intros E. apply same_bits_same_land;
      destruct (bit_set n 0x02), (bit_set n 0x10), (bit_set n 0x01), (bit_set n 0x04),
               (bit_set n' 0x02), (bit_set n' 0x10), (bit_set n' 0x01), (bit_set n' 0x04);
      try reflexivity; simpl in E; discriminate E.
  - intros E.
    rewrite (bit_set_masked n 0x02), (bit_set_masked n 0x10),
            (bit_set_masked n 0x01), (bit_set_masked n 0x04) by reflexivity.
    rewrite (bit_set_masked n' 0x02), (bit_set_masked n' 0x10),
            (bit_set_masked n' 0x01), (bit_set_masked n' 0x04) by reflexivity.
    now rewrite E.
Qed.

Lemma only_four_bits_matter_witness :
  PyInt.int_base0 "0x0012" = Some 18 /\
  PyInt.int_base0 "-102" = Some (-102) /\
  (parse_flags "0x0012" = parse_flags "-102" <->
   Z.land 18 flag_bits = Z.land (-102) flag_bits) /\
  parse_flags "-102" = [SYN; ACK].
Proof.
  assert (H : PyInt.int_base0 "0x0012" = Some 18) by (vm_compute; reflexivity).
  assert (H' : PyInt.int_base0 "-102" = Some (-102)) by (vm_compute; reflexivity).
  split; [exact H|]. split; [exact H'|].
  split; [exact (only_four_bits_matter _ _ _ _ H H') | vm_compute; reflexivity].
Defined.

(** ** Records that do not close *)

Lemma closes_undecoded (fs : string) :
  PyInt.int_base0 fs = None -> closes (parse_flags fs) = false.
Proof. intros H. unfold parse_flags. now rewrite H. Qed.

(** X8. A six-field record with an accepted timestamp is never dropped for
    what its other fields hold.  When its flags do not close (no RST and
    not both FIN and ACK, which includes a flags field that is empty or not
    an integer), it leaves a table that already knows its identity as it
    is, and otherwise appends the identity with that timestamp as start and
    no end; addresses and ports are taken as they come, empty ones
    included. *)
Theorem non_closing_record_only_opens :
  (forall fs, PyInt.int_base0 fs = None -> closes (parse_flags fs) = false) /\
  (forall (c : connections) (ts a b p q fs : string) (t : float),
      PyFloat.float_of_string ts = Some t ->
      closes (parse_flags fs) = false ->
      exists out,
        step_row c [ts; a; b; p; q; fs] =
        Return (match lookup (a, b, p, q) c with
                | Some _ => c
                | None => c ++ [((a, b, p, q), mk_times (Some t) None)]
                end, out)).
Proof.
  split; [exact closes_undecoded|].
  intros c ts a b p q fs t Hts Hc. rewrite step_row_six.
  rewrite (handle_fields_table _ _ _ _ _ _ _ _ Hts). unfold next_table.
  rewrite Hc. destruct (lookup (a, b, p, q) c); eauto.
Qed.

Lemma non_closing_record_only_opens_witness :
  exists out,
    step_row [(k1, mk_times (Some t5) None)] ["7.0"; ""; ""; ""; ""; ""]%string =
    Return ([(k1, mk_times (Some t5) None);
             (("", "", "", "")%string, mk_times (Some t7) None)], out).
Proof.
  apply (proj2 non_closing_record_only_opens [(k1, mk_times (Some t5) None)]
           "7.0"%string ""%string ""%string ""%string ""%string ""%string t7).
  - vm_compute; reflexivity.
  - apply (proj1 non_closing_record_only_opens). vm_compute; reflexivity.
Defined.

(** ** The cause shown in the debug output *)

Section Output.

Variables (c : connections) (ts a b p q fs : string) (t : float).

Let k : conn_id := (a, b, p, q).

(** The lines printed for a valid record, after the row itself. *)
Lemma handle_fields_output :
  PyFloat.float_of_string ts = Some t ->
  snd (handle_fields c ts a b p q fs) =
  DbgFlags fs (parse_flags fs) ::
  (if contains k c then [] else [DbgStart k t]) ++
  (if flag_in RST (parse_flags fs) && is_open k c then [DbgRstEnd k t] else []) ++
  (if flag_in FIN (parse_flags fs) && flag_in ACK (parse_flags fs) &&
      is_open k c && negb (flag_in RST (parse_flags fs))
   then [DbgFinAckEnd k t] else []).
Proof.
  intros Hts. unfold handle_fields, contains, is_open. rewrite Hts. fold k.
  set (fl := parse_flags fs).
  destruct (lookup k c) as [v|] eqn:L; simpl negb; cbv iota.
  - destruct (flag_in RST fl); cbn [andb negb].
    + rewrite (getitem_old _ _ _ L).
      destruct (has_end v) eqn:E; simpl negb; cbv iota.
      * destruct (flag_in FIN fl && flag_in ACK fl); [|reflexivity].
        rewrite (getitem_old _ _ _ L), E. reflexivity.
      * rewrite (setitem_field_old _ _ _ _ L).
        destruct (flag_in FIN fl && flag_in ACK fl); cbn [andb]; [|reflexivity].
        rewrite (getitem_old _ _ _ (lookup_store_same _ _ (set_end t v) _ L)).
        reflexivity.
    + destruct (flag_in FIN fl && flag_in ACK fl); cbn [andb]; [|reflexivity].
      rewrite (getitem_old _ _ _ L).
      destruct (has_end v); simpl negb; cbv iota; cbn [andb]; reflexivity.
  - rewrite (setitem_field_new _ _ _ L).
    pose proof (lookup_app_new _ (set_start t empty_times) _ L) as L1.
    destruct (flag_in RST fl); cbn [andb negb].
    + rewrite (getitem_old _ _ _ L1). simpl negb. cbv iota.
      rewrite (setitem_field_old _ _ _ _ L1), (store_app_new _ _ _ _ L).
      pose proof (lookup_app_new _ (set_end t (set_start t empty_times)) _ L) as L2.
      destruct (flag_in FIN fl && flag_in ACK fl); cbn [andb]; [|reflexivity].
      rewrite (getitem_old _ _ _ L2). reflexivity.
    + destruct (flag_in FIN fl && flag_in ACK fl); cbn [andb]; [|reflexivity].
      rewrite (getitem_old _ _ _ L1). reflexivity.
Qed.

End Output.

Lemma end_cause_app (k : conn_id) (o1 o2 : list debug_msg) :
  end_cause k (o1 ++ o2) =
  match end_cause k o1 with
  | NONE => end_cause k o2
  | x => x
  end.
Proof.
  induction o1 as [|m o1 IH]; [reflexivity|].
  destruct m; cbn [app end_cause]; try exact IH;
    destruct (conn_id_eqb k k0); auto.
Qed.

Lemma is_open_next_table (c : connections) (k k0 : conn_id) (t : float)
    (flags : list flag) :
  is_open k (next_table c k0 t flags) =
  is_open k c && negb (conn_id_eqb k k0 && closes flags).
Proof.
  unfold is_open. destruct (conn_id_eqb k k0) eqn:E.
  - apply conn_id_eqb_eq in E. subst k0. cbn [andb].
    destruct (lookup k c) as [v|] eqn:L.
    + rewrite (next_table_old _ _ t flags _ L).
      destruct (closes flags), (has_end v) eqn:He; cbn [andb negb];
        unfold has_end in *; simpl; rewrite ?He; reflexivity.
    + rewrite (next_table_new _ _ t flags L).
      now destruct (closes flags).
  - apply conn_id_eqb_neq in E. rewrite (next_table_other _ _ _ _ _ E).
    cbn [andb negb]. now rewrite andb_true_r.
Qed.

Lemma step_row_cause (c : connections) (row : list string) (k : conn_id) :
  too_long row = false ->
  exists out,
    step_row c row = Return (apply_row c row, out) /\
    end_cause k out =
    match valid_record row with
    | Some (k0, t, flags) =>
        if conn_id_eqb k k0 && closes flags && is_open k c
        then cause_of_close (Some (t, flags))
        else NONE
    | None => NONE
    end.
Proof.
  unfold too_long. intros H. apply Nat.ltb_ge in H.
  destruct (Nat.lt_ge_cases (List.length row) 6) as [Hs | Hs].
  - rewrite (step_row_short _ _ Hs). unfold apply_row.
    rewrite (valid_record_short _ Hs). eauto.
  - do 6 (destruct row as [|? row]; [simpl in Hs; lia|]).
    destruct row; [|simpl in H; lia].
    rewrite step_row_six. eexists. split.
    + f_equal. f_equal. unfold apply_row, valid_record, record_fields.
      destruct (PyFloat.float_of_string s) as [t|] eqn:E.
      * now apply handle_fields_table.
      * now rewrite handle_fields_invalid.
    + unfold valid_record, record_fields.
      destruct (PyFloat.float_of_string s) as [t|] eqn:E.
      * rewrite (handle_fields_output _ _ _ _ _ _ _ _ E).
        unfold cause_of_close, closes.
        generalize (parse_flags s4). generalize (s0, s1, s2, s3).
        intros k0 fl. cbn [end_cause].
        rewrite !end_cause_app.
        destruct (conn_id_eqb k k0) eqn:Ek.
        -- apply conn_id_eqb_eq in Ek. subst k0.
           destruct (contains k c), (flag_in RST fl), (flag_in FIN fl),
                    (flag_in ACK fl), (is_open k c);
             cbn [andb orb negb end_cause]; rewrite ?conn_id_eqb_refl; reflexivity.
        -- destruct (contains k0 c), (flag_in RST fl), (flag_in FIN fl),
                    (flag_in ACK fl), (is_open k0 c);
             cbn [andb orb negb end_cause]; rewrite ?Ek; reflexivity.
      * rewrite handle_fields_invalid by assumption. reflexivity.
Qed.

Lemma process_rows_cause (rows : list (list string)) : forall c c' out k,
  process_rows c rows = Return (c', out) ->
  end_cause k out =
  if is_open k c then cause_of_close (first_closing rows k) else NONE.
Proof.
  induction rows as [|row rest IH]; intros c c' out k H.
  - cbn [process_rows] in H. inversion H; subst c' out.
    cbn [end_cause first_closing cause_of_close]. now destruct (is_open k c).
  - cbn [process_rows] in H.
    destruct (too_long row) eqn:Hl.
    { rewrite (step_row_raise _ _ Hl) in H. discriminate. }
    destruct (step_row_cause c row k Hl) as (out1 & Hs & Hc1).
    rewrite Hs in H. cbn [bind] in H.
    destruct (process_rows (apply_row c row) rest) as [[c2 out2]|e] eqn:P;
      cbn [bind] in H; [|discriminate].
    inversion H; subst c' out; clear H.
    rewrite end_cause_app, Hc1, (IH _ _ _ k P). cbn [first_closing].
    unfold apply_row.
    destruct (valid_record row) as [[[k0 t0] fl0]|]; [|reflexivity].
    rewrite is_open_next_table.
    destruct (conn_id_eqb k k0), (closes fl0), (is_open k c);
      cbn [andb negb]; try reflexivity.
    unfold cause_of_close. now destruct (flag_in RST fl0).
Qed.

(** X9. Over a whole run the debug output names one cause per identity,
    that of its first closing record: the first end line printed for [k]
    is the "RST end" line when that record's flags hold RST, the "FIN-ACK
    end" line when they hold FIN and ACK without RST, and there is no end
    line for [k] when no record closes it.  For an identity of the table
    an end line is printed exactly when its end is set. *)
Theorem logged_cause_is_first_close :
  forall (rows : list (list string)) (c : connections) (out : list debug_msg)
         (k : conn_id),
    process_rows [] rows = Return (c, out) ->
    end_cause k out = cause_of_close (first_closing rows k) /\
    (forall v, lookup k c = Some v -> (t_end v = None <-> end_cause k out = NONE)).
Proof.
  intros rows c out k H.
  pose proof (process_rows_cause rows [] c out k H) as Hc.
  change (is_open k []) with true in Hc. cbv iota in Hc.
  split; [exact Hc|].
  intros v L. rewrite Hc.
  assert (F : final_connections rows = Return c).
  { unfold final_connections. now rewrite H. }
  pose proof (final_record_characterised rows c k F) as Hr. rewrite L in Hr.
  destruct (first_valid_time rows k) as [s|]; [|discriminate].
  inversion Hr; subst v; clear Hr. cbn [t_end].
  destruct (first_closing rows k) as [[t fl]|]; cbn [option_map fst cause_of_close].
  - split; [discriminate|]. destruct (flag_in RST fl); discriminate.
  - split; reflexivity.
Qed.

Lemma logged_cause_is_first_close_witness :
  (exists out,
      process_rows [] [mk_row "5.0" k1 "0x02"; mk_row "6.0" k2 "0x02";
                       mk_row "7.0" k1 "0x11"; mk_row "8.0" k1 "0x04"] =
      Return ([(k1, mk_times (Some t5) (Some t7)); (k2, mk_times (Some t6) None)], out) /\
      end_cause k1 out = GRACEFUL /\ end_cause k2 out = NONE).
Proof.
  destruct (process_rows [] [mk_row "5.0" k1 "0x02"; mk_row "6.0" k2 "0x02";
                             mk_row "7.0" k1 "0x11"; mk_row "8.0" k1 "0x04"])
    as [[c out]|e] eqn:P; [|vm_compute in P; discriminate P].
  assert (Hc : c = [(k1, mk_times (Some t5) (Some t7)); (k2, mk_times (Some t6) None)]).
  { vm_compute in P. inversion P. reflexivity. }
  subst c. exists out. split; [reflexivity|]. split.
  - rewrite (proj1 (logged_cause_is_first_close _ _ _ k1 P)). vm_compute. reflexivity.
  - rewrite (proj1 (logged_cause_is_first_close _ _ _ k2 P)). vm_compute. reflexivity.
Defined.

(** * The sending loop of [client_q3.py] *)

Section SliceLemmas.

Context {A : Type}.

Lemma skipn_repeat (x : A) (n a : nat) : skipn a (repeat x n) = repeat x (n - a).
Proof.
  revert a. induction n as [|n IH]; intros [|a]; simpl; auto.
Qed.

Lemma firstn_repeat (x : A) (n k : nat) : firstn k (repeat x n) = repeat x (Nat.min k n).
Proof.
  revert k. induction n as [|n IH]; intros [|k]; simpl; auto.
  now rewrite IH.
Qed.

Lemma slice_repeat (x : A) (n : nat) (a b : Z) :
  0 <= a -> a <= b -> b <= Z.of_nat n ->
  ClientQ3.slice (repeat x n) a b = repeat x (Z.to_nat (b - a)).
Proof.
  intros Ha Hab Hb. unfold ClientQ3.slice, ClientQ3.clamp_index.
  rewrite repeat_length.
  destruct (Z.ltb_spec a 0); [lia|]. destruct (Z.ltb_spec b 0); [lia|].
  rewrite !Z.min_l by lia.
  rewrite skipn_repeat, firstn_repeat. f_equal. lia.
Qed.

Lemma slice_length (l : list A) (a b : Z) :
  Z.of_nat (List.length (ClientQ3.slice l a b)) =
  Z.max 0 (Z.min (ClientQ3.clamp_index (Z.of_nat (List.length l)) b
                  - ClientQ3.clamp_index (Z.of_nat (List.length l)) a)
                 (Z.of_nat (List.length l)
                  - Z.max 0 (ClientQ3.clamp_index (Z.of_nat (List.length l)) a))).
Proof.
  unfold ClientQ3.slice. rewrite length_firstn, length_skipn. lia.
Qed.

End SliceLemmas.

Section PositiveRate.
Import ClientQ3.

Variables (total rate : Z).
Hypothesis Hrate : 0 < rate.
Hypothesis Htotal : 0 <= total.

Lemma chunk_count_spec (j : nat) :
  (j < chunk_count total rate)%nat <-> Z.of_nat j * rate < total.
Proof.
  unfold chunk_count.
  pose proof (Z.div_mod (total + rate - 1) rate ltac:(lia)) as Hd.
  pose proof (Z.mod_pos_bound (total + rate - 1) rate Hrate) as Hm.
  set (qq := (total + rate - 1) / rate) in *.
  set (r := (total + rate - 1) mod rate) in *.
  assert (Hq : 0 <= qq) by (apply Z.div_pos; lia).
  split; intros H.
  - assert (Z.of_nat j <= qq - 1) by lia. nia.
  - assert (Z.of_nat j < qq) by nia. lia.
Qed.

Lemma next_chunk_spec (j : nat) :
  Z.of_nat j * rate < total ->
  next_chunk (make_data total) total rate (Z.of_nat j * rate) =
  expected_chunk total rate j.
Proof.
  intros Hj. unfold next_chunk, expected_chunk, make_data.
  set (bs := Z.of_nat j * rate) in *.
  assert (Hbs : 0 <= bs) by (unfold bs; nia).
  assert (Hcur : (if bs + rate >? total then total - bs else rate)
                 = Z.min rate (total - bs)).
  { destruct (Z.gtb_spec (bs + rate) total); lia. }
  rewrite Hcur, slice_repeat by lia.
  rewrite repeat_length. f_equal; [f_equal; lia|].
  replace ((Z.of_nat j + 1) * rate) with (bs + rate) by (unfold bs; lia). lia.
Qed.

(** From iteration [j] on: [k] more chunks when every call succeeds. *)
Lemma send_loop_from (ok : nat -> bool) : forall (k j fuel : nat),
  (j + k = chunk_count total rate)%nat ->
  (k <= fuel)%nat ->
  (forall i, (j <= i)%nat -> (i < chunk_count total rate)%nat -> ok i = true) ->
  send_loop fuel ok j (make_data total) total rate
            (Z.min (Z.of_nat j * rate) total) =
  Finished (map (expected_chunk total rate) (seq j k)).
Proof.
  induction k as [|k IH]; intros j fuel Hjk Hfuel Hok.
  - assert (Hge : ~ Z.of_nat j * rate < total).
    { rewrite <- chunk_count_spec. lia. }
    rewrite Z.min_r by lia.
    destruct fuel; simpl; now rewrite Z.ltb_irrefl.
  - assert (Hlt : Z.of_nat j * rate < total).
    { apply chunk_count_spec. lia. }
    rewrite Z.min_l by lia.
    destruct fuel as [|fuel]; [lia|]. cbn [send_loop seq map].
    destruct (Z.ltb_spec (Z.of_nat j * rate) total); [|lia].
    rewrite (next_chunk_spec j Hlt).
    destruct (expected_chunk total rate j) as [chunk bs'] eqn:E.
    assert (Hbs : bs' = Z.min (Z.of_nat (S j) * rate) total).
    { unfold expected_chunk in E. inversion E. f_equal. lia. }
    rewrite (Hok j) by lia. subst bs'.
    rewrite (IH (S j) fuel) by (try lia; intros; apply Hok; lia).
    reflexivity.
Qed.


Lemma chunks_concat : forall (k j : nat),
  (j + k = chunk_count total rate)%nat ->
  List.concat (map fst (map (expected_chunk total rate) (seq j k))) =
  repeat "A"%char (Z.to_nat (total - Z.min (Z.of_nat j * rate) total)).
Proof.
  induction k as [|k IH]; intros j Hjk.
  - assert (Hge : ~ Z.of_nat j * rate < total).
    { rewrite <- chunk_count_spec. lia. }
    rewrite Z.min_r by lia. now rewrite Z.sub_diag.
  - assert (Hlt : Z.of_nat j * rate < total).
    { apply chunk_count_spec. lia. }
    cbn [seq map List.concat fst expected_chunk].
    rewrite (IH (S j)) by lia. rewrite <- repeat_app. f_equal.
    assert (0 <= Z.of_nat j * rate) by nia. lia.
Qed.

End PositiveRate.

(** X10. With a positive rate and a non-negative total, and as long as no
    [sendall] raises, the loop ends after [total / rate] (rounded up)
    iterations; chunk [j] is [min(rate, total - j*rate)] bytes, so every
    chunk but the last is exactly [rate] bytes; the running total printed
    after it is [min((j+1)*rate, total)]; and the chunks put together are
    the [total] bytes, each sent once. *)
Theorem all_bytes_sent_in_chunks :
  forall (total rate : Z) (fuel : nat) (ok : nat -> bool),
    0 < rate -> 0 <= total ->
    (ClientQ3.chunk_count total rate <= fuel)%nat ->
    (forall i, (i < ClientQ3.chunk_count total rate)%nat -> ok i = true) ->
    ClientQ3.send_data_loop fuel ok total rate =
      ClientQ3.Finished (map (ClientQ3.expected_chunk total rate)
                             (seq 0 (ClientQ3.chunk_count total rate))) /\
    List.concat (map fst (map (ClientQ3.expected_chunk total rate)
                         (seq 0 (ClientQ3.chunk_count total rate)))) =
      ClientQ3.make_data total.
Proof.
  intros total rate fuel ok Hrate Htotal Hfuel Hok. split.
  - unfold ClientQ3.send_data_loop.
    rewrite <- (send_loop_from total rate Hrate Htotal ok _ 0 fuel);
      [| reflexivity | assumption | intros; now apply Hok].
    f_equal. simpl. lia.
  - rewrite (chunks_concat total rate Hrate Htotal
               (ClientQ3.chunk_count total rate) 0 eq_refl).
    unfold ClientQ3.make_data. f_equal. simpl. lia.
Qed.

Lemma all_bytes_sent_in_chunks_witness :
  ClientQ3.chunk_count 4096 40 = 103%nat /\
  ClientQ3.send_data_loop 103 ClientQ3.always_ok 4096 40 =
    ClientQ3.Finished (map (ClientQ3.expected_chunk 4096 40) (seq 0 103)) /\
  ClientQ3.expected_chunk 4096 40 102 = (repeat "A"%char 16, 4096).
Proof.
  assert (Hn : ClientQ3.chunk_count 4096 40 = 103%nat) by (vm_compute; reflexivity).
  split; [exact Hn|]. split; [|vm_compute; reflexivity].
  destruct (all_bytes_sent_in_chunks 4096 40 103 ClientQ3.always_ok) as [H _];
    [lia | lia | rewrite Hn; lia | reflexivity |].
  rewrite Hn in H. exact H.
Defined.



Section NonPositiveRate.
Import ClientQ3.

Variables (total rate : Z).
Hypothesis Hrate : rate <= 0.
Hypothesis Htotal : 0 < total.

(** With a rate that is not positive an iteration leaves [bytes_sent]
    below [total]. *)
Lemma next_chunk_stuck (bs : Z) :
  0 <= bs < total ->
  bs <= snd (next_chunk (make_data total) total rate bs) < total.
Proof.
  intros Hbs. unfold next_chunk. cbn [snd].
  destruct (Z.gtb_spec (bs + rate) total) as [Hgt | Hle]; [lia|].
  pose proof (slice_length (make_data total) bs (bs + rate)) as Hl.
  unfold make_data in *. rewrite repeat_length in Hl.
  unfold clamp_index in Hl.
  destruct (Z.ltb_spec bs 0); [lia|].
  destruct (Z.ltb_spec (bs + rate) 0); lia.
Qed.

Lemma send_loop_never_finishes (ok : nat -> bool) : forall (fuel i : nat) (bs : Z),
  0 <= bs < total ->
  forall sent, send_loop fuel ok i (make_data total) total rate bs <> Finished sent.
Proof.
  induction fuel as [|fuel IH]; intros i bs Hbs sent; cbn [send_loop];
    (destruct (Z.ltb_spec bs total); [|lia]); [discriminate|].
  pose proof (next_chunk_stuck bs Hbs) as Hn.
  destruct (next_chunk (make_data total) total rate bs) as [chunk bs'].
  cbn [snd] in Hn. destruct (ok i); [|discriminate].
  assert (Hb' : 0 <= bs' < total) by lia.
  specialize (IH (S i) bs' Hb').
  destruct (send_loop fuel ok (S i) (make_data total) total rate bs');
    cbn [add_sent]; try discriminate.
  exfalso. now apply (IH sent0).
Qed.

Lemma send_loop_runs_on : forall (fuel i : nat) (bs : Z),
  0 <= bs < total ->
  send_loop fuel always_ok i (make_data total) total rate bs = OutOfFuel.
Proof.
  induction fuel as [|fuel IH]; intros i bs Hbs; cbn [send_loop];
    (destruct (Z.ltb_spec bs total); [|lia]); [reflexivity|].
  pose proof (next_chunk_stuck bs Hbs) as Hn.
  destruct (next_chunk (make_data total) total rate bs) as [chunk bs'].
  cbn [snd] in Hn. unfold always_ok at 1.
  rewrite IH by lia. reflexivity.
Qed.

End NonPositiveRate.

(** X12. With a rate of zero or below and a positive total the loop never
    reaches its end: [bytes_sent] stays below [total_bytes] for ever, so
    however many iterations are allowed the loop is still running when no
    [sendall] raises, and the only way out is a raising [sendall]. *)
Theorem non_positive_rate_never_finishes :
  forall (total rate : Z),
    rate <= 0 -> 0 < total ->
    (forall fuel, ClientQ3.send_data_loop fuel ClientQ3.always_ok total rate
                  = ClientQ3.OutOfFuel) /\
    (forall fuel ok sent,
        ClientQ3.send_data_loop fuel ok total rate <> ClientQ3.Finished sent).
Proof.
  intros total rate Hrate Htotal. split.
  - intros fuel. apply send_loop_runs_on; lia.
  - intros fuel ok sent. apply send_loop_never_finishes; lia.
Qed.

Lemma non_positive_rate_never_finishes_witness :
  ClientQ3.send_data_loop 1000 ClientQ3.always_ok 10 (-7) = ClientQ3.OutOfFuel /\
  ClientQ3.send_data_loop 1000 ClientQ3.always_ok 10 0 = ClientQ3.OutOfFuel.
Proof.
  split.
  - apply (proj1 (non_positive_rate_never_finishes 10 (-7) ltac:(lia) ltac:(lia))).
  - apply (proj1 (non_positive_rate_never_finishes 10 0 ltac:(lia) ltac:(lia))).
Defined.

(** * Timestamps that are always accepted *)

Section PlainTimestamps.
Import Chars PyFloat.

Ltac every_char c :=
  destruct c as [[|] [|] [|] [|] [|] [|] [|] [|]].

Lemma dec_digit_is_plain (c : ascii) :
  is_dec_digit c = true ->
  is_space c = false /\ Ascii.eqb c "_" = false /\ Ascii.eqb c "-" = false /\
  Ascii.eqb c "+" = false /\ Ascii.eqb c "." = false.
Proof.
  every_char c; vm_compute; intros H; try discriminate H; repeat split.
Qed.

Lemma plain_char_facts (c : ascii) :
  plain_char c -> is_space c = false /\ Ascii.eqb c "_" = false.
Proof.
  intros [H | ->]; [|split; reflexivity].
  destruct (dec_digit_is_plain c H) as (? & ? & _). auto.
Qed.

Lemma strip_underscores_none (l : list ascii) : forall prev,
  Forall plain_char l ->
  match prev with Some p => Ascii.eqb p "_" = false | None => True end ->
  strip_underscores prev l = Some l.
Proof.
  induction l as [|c r IH]; intros prev Hl Hp; cbn [strip_underscores].
  - destruct prev as [p|]; [now rewrite Hp | reflexivity].
  - inversion Hl as [|? ? Hc Hr]; subst.
    destruct (plain_char_facts c Hc) as (_ & Hus). rewrite Hus.
    assert (Hprev : match prev with Some p => Ascii.eqb p "_" | None => false end = false)
      by (destruct prev; auto).
    rewrite Hprev. cbn [andb].
    now rewrite (IH (Some c) Hr Hus).
Qed.

Lemma skip_spaces_plain (l : list ascii) :
  Forall plain_char l -> skip_spaces l = l.
Proof.
  intros H. destruct l as [|c r]; [reflexivity|]. cbn [skip_spaces].
  inversion H; subst. now destruct (plain_char_facts c H2) as (-> & _).
Qed.

Lemma take_digits_app (ip tail : list ascii) : forall acc n,
  all_digits ip = true ->
  match tail with [] => True | c :: _ => is_dec_digit c = false end ->
  exists acc', take_digits acc n (ip ++ tail) = (acc', n + Z.of_nat (List.length ip), tail).
Proof.
  induction ip as [|d ip IH]; intros acc n Hd Ht.
  - exists acc. cbn [app List.length]. rewrite Z.add_0_r.
    destruct tail as [|c r]; [reflexivity|]. cbn [take_digits]. now rewrite Ht.
  - cbn [all_digits forallb] in Hd. apply andb_true_iff in Hd. destruct Hd as [Hd1 Hd2].
    cbn [app take_digits]. rewrite Hd1.
    destruct (IH (10 * acc + Z.to_N (code d - 48))%N (n + 1) Hd2 Ht) as [acc' ->].
    exists acc'. f_equal. f_equal. cbn [List.length]. lia.
Qed.

Lemma all_digits_plain (l : list ascii) :
  all_digits l = true -> Forall plain_char l.
Proof.
  induction l as [|c r IH]; intros H; constructor;
    cbn [all_digits forallb] in H; apply andb_true_iff in H; destruct H as [H1 H2].
  - now left.
  - now apply IH.
Qed.

Lemma float_of_plain (l ip fp : list ascii) :
  ip <> [] -> all_digits ip = true -> all_digits fp = true ->
  l = ip \/ l = ip ++ "."%char :: fp ->
  exists x, float_of_chars l = Some x.
Proof.
  intros Hne Hip Hfp Hl.
  assert (Hplain : Forall plain_char l).
  { destruct Hl as [-> | ->]; [now apply all_digits_plain|].
    apply Forall_app. split; [now apply all_digits_plain|].
    constructor; [now right | now apply all_digits_plain]. }
  unfold float_of_chars.
  rewrite (strip_underscores_none l None Hplain I).
  rewrite (skip_spaces_plain l Hplain).
  rewrite (skip_spaces_plain (rev l)) by (now apply Forall_rev).
  rewrite rev_involutive.
  assert (Hsign : take_sign l = (false, l)).
  { destruct ip as [|d ip']; [congruence|].
    cbn [all_digits forallb] in Hip. apply andb_true_iff in Hip. destruct Hip as [Hd _].
    destruct (dec_digit_is_plain d Hd) as (_ & _ & Hm & Hp & _).
    destruct Hl as [-> | ->]; cbn [app take_sign]; now rewrite Hm, Hp. }
  assert (Hlen : 0 < Z.of_nat (List.length ip)).
  { destruct ip; [congruence | cbn [List.length]; lia]. }
  unfold parse_decimal. rewrite Hsign.
  destruct Hl as [-> | ->].
  - destruct (take_digits_app ip [] 0%N 0 Hip I) as [m1 Hm1].
    rewrite app_nil_r in Hm1. rewrite Hm1.
    destruct (Z.eqb_spec (0 + Z.of_nat (List.length ip) + 0) 0); [lia|].
    cbn [take_exponent]. eauto.
  - destruct (take_digits_app ip ("."%char :: fp) 0%N 0 Hip eq_refl) as [m1 Hm1].
    rewrite Hm1. change (Ascii.eqb "." ".") with true. cbv iota.
    destruct (take_digits_app fp [] m1 0 Hfp I) as [m2 Hm2].
    rewrite app_nil_r in Hm2. rewrite Hm2.
    destruct (Z.eqb_spec (0 + Z.of_nat (List.length ip) + (0 + Z.of_nat (List.length fp))) 0);
      [lia|].
    cbn [take_exponent]. eauto.
Qed.

End PlainTimestamps.

(** X13. A six-field record whose time field is written with decimal
    digits and an optional fractional part is never skipped as an invalid
    time: [float] accepts the field, the record raises nothing, and after
    it its identity is in the table, with that time as start when the
    identity is new. *)
Theorem plain_timestamp_is_tracked :
  forall (c : connections) (ts a b p q fs : string),
    plain_timestamp ts ->
    exists t c' out,
      PyFloat.float_of_string ts = Some t /\
      step_row c [ts; a; b; p; q; fs] = Return (c', out) /\
      contains (a, b, p, q) c' = true /\
      (lookup (a, b, p, q) c = None ->
       exists v, lookup (a, b, p, q) c' = Some v /\ t_start v = Some t).
Proof.
  intros c ts a b p q fs (ip & fp & Hne & Hip & Hfp & Hl).
  destruct (float_of_plain _ ip fp Hne Hip Hfp Hl) as [t Ht].
  fold (PyFloat.float_of_string ts) in Ht.
  exists t. rewrite step_row_six. do 2 eexists.
  split; [exact Ht|]. split; [reflexivity|].
  rewrite (handle_fields_table _ _ _ _ _ _ _ _ Ht). unfold contains.
  destruct (lookup (a, b, p, q) c) as [v0|] eqn:L.
  - rewrite (next_table_old _ _ t (parse_flags fs) _ L). split; [reflexivity | discriminate].
  - rewrite (next_table_new _ _ t (parse_flags fs) L). split; [reflexivity|].
    intros _. eexists. split; reflexivity.
Qed.

Lemma plain_timestamp_is_tracked_witness :
  exists t c' out,
    PyFloat.float_of_string "1700000000.123456789" = Some t /\
    step_row [] (mk_row "1700000000.123456789" k1 "0x0002") = Return (c', out) /\
    contains k1 c' = true /\
    (lookup k1 [] = None -> exists v, lookup k1 c' = Some v /\ t_start v = Some t).
Proof.
  apply (plain_timestamp_is_tracked [] "1700000000.123456789"
           "10.0.0.1" "10.0.0.2" "40000" "80" "0x0002").
  exists (list_ascii_of_string "1700000000"), (list_ascii_of_string "123456789").
  split; [discriminate|]. split; [reflexivity|]. split; [reflexivity|].
  right. reflexivity.
Defined.
